(** * mitmproxy/proxy/layers/websocket.py

    A shallow embedding of the WebSocket relay layer: the [Fragmentizer] that
    plans the outgoing fragmentation of a (possibly edited) message, the
    [WebsocketConnection] wrapper, and the [relay_messages] / [done] handlers
    of [WebsocketLayer], followed by the properties of the layer that its
    specification states. *)

From Stdlib Require Import ZArith NArith List Bool String Ascii Lia.
From Stdlib Require Import Strings.Byte.
From Stdlib Require Import DecimalString.
From Equations Require Import Equations.
Import ListNotations.

Local Open Scope string_scope.
Local Open Scope list_scope.
Local Open Scope Z_scope.

(** ** Python values *)

(** [bytes] objects.  A [str] is represented by its UTF-8 encoding, so that
    [str.encode()] is the identity on the representation and
    [bytes.decode(errors="replace")] is the sanitising pass [utf8_replace]
    below. *)
Definition bytes := list byte.
Definition str := string.

Definition len {A} (s : list A) : Z := Z.of_nat (List.length s).

(** [sum(xs)] on a list of ints. *)
Definition sum (xs : list Z) : Z := fold_right Z.add 0 xs.

(** Normalisation of one bound of a slice: a negative bound counts from the
    end, and the result is clamped to [0, len]. *)
Definition slice_index (n i : Z) : Z :=
  if i <? 0 then Z.max 0 (i + n) else Z.min i n.

(** [s[lo:hi]]. *)
Definition slice {A} (s : list A) (lo hi : Z) : list A :=
  let a := slice_index (len s) lo in
  let b := slice_index (len s) hi in
  firstn (Z.to_nat (b - a)) (skipn (Z.to_nat a) s).

(** [s[lo:]]. *)
Definition slice_from {A} (s : list A) (lo : Z) : list A :=
  skipn (Z.to_nat (slice_index (len s) lo)) s.

(** [xs[:-1]]. *)
Definition but_last {A} (xs : list A) : list A := removelast xs.

(** *** UTF-8 with the [replace] error handler *)

Definition in_range (lo hi : N) (b : byte) : bool :=
  (lo <=? Byte.to_N b)%N && (Byte.to_N b <=? hi)%N.

(** What a byte announces when it starts a character: an ASCII character, a
    lead byte followed by [n] continuation bytes of which the first lies in
    [lo, hi], or an invalid start byte. *)
Inductive utf8_start := Ascii1 | Lead (n : nat) (lo hi : N) | BadStart.

Definition utf8_lead (b : byte) : utf8_start :=
  let c := Byte.to_N b in
  if (c <? 0x80)%N then Ascii1
  else if (c <? 0xC2)%N then BadStart
  else if (c <? 0xE0)%N then Lead 1 0x80 0xBF
  else if (c =? 0xE0)%N then Lead 2 0xA0 0xBF
  else if (c =? 0xED)%N then Lead 2 0x80 0x9F
  else if (c <? 0xF0)%N then Lead 2 0x80 0xBF
  else if (c =? 0xF0)%N then Lead 3 0x90 0xBF
  else if (c <? 0xF4)%N then Lead 3 0x80 0xBF
  else if (c =? 0xF4)%N then Lead 3 0x80 0x8F
  else BadStart.

(** U+FFFD REPLACEMENT CHARACTER. *)
Definition U_FFFD : bytes := [xef; xbf; xbd].

(** The decoder: [pend] holds the bytes of the character being read, [need]
    the number of continuation bytes still expected and [lo, hi] the range of
    the next one.  An invalid start byte, and a sequence cut short by a byte
    that cannot continue it or by the end of the input, each become one
    U+FFFD; the byte that cut a sequence short is read again as a start. *)
Fixpoint utf8_dec (pend : bytes) (need : nat) (lo hi : N) (s : bytes)
  {struct s} : bytes :=
  match s with
  | [] => match pend with [] => [] | _ :: _ => U_FFFD end
  | b :: rest =>
      let start :=
        match utf8_lead b with
        | Ascii1 => b :: utf8_dec [] 0 0 0 rest
        | Lead n lo' hi' => utf8_dec [b] n lo' hi' rest
        | BadStart => U_FFFD ++ utf8_dec [] 0 0 0 rest
        end in
      match need with
      | O => start
      | S k =>
          if in_range lo hi b then
            match k with
            | O => pend ++ b :: utf8_dec [] 0 0 0 rest
            | S _ => utf8_dec (pend ++ [b]) k 0x80 0xBF rest
            end
          else U_FFFD ++ start
      end
  end.

Definition utf8_replace (s : bytes) : bytes := utf8_dec [] 0 0 0 s.

(** [s.encode()] and [b.decode(errors="replace")]. *)
Definition encode (s : str) : bytes := list_byte_of_string s.
Definition decode_replace (b : bytes) : str :=
  string_of_list_byte (utf8_replace b).

(** *** Formatting *)

(** [str(n)] for an int. *)
Definition str_of_int (n : Z) : string := NilZero.string_of_int (Z.to_int n).

Definition hexdigit (n : N) : ascii :=
  if (n <? 10)%N then ascii_of_N (48 + n) else ascii_of_N (87 + n).

Definition squote : ascii := "039"%char.
Definition dquote : ascii := "034"%char.

(** One byte of [repr(b)] with the chosen quote. *)
Definition repr_byte (quote : ascii) (b : byte) : string :=
  let c := Byte.to_N b in
  let a := ascii_of_byte b in
  if Ascii.eqb a quote || Ascii.eqb a "092"%char then
    String "092"%char (String a EmptyString)
  else if (c =? 9)%N then "\t"
  else if (c =? 10)%N then "\n"
  else if (c =? 13)%N then "\r"
  else if (c <? 32)%N || (127 <=? c)%N then
    String "092"%char (String "x"%char
      (String (hexdigit (N.shiftr c 4)) (String (hexdigit (N.land c 15)) EmptyString)))
  else String a EmptyString.

(** [repr(b)] for a bytes object: single quotes unless the value holds a
    single quote and no double quote. *)
Definition repr_bytes (b : bytes) : string :=
  let has q := existsb (fun x => Ascii.eqb (ascii_of_byte x) q) b in
  let quote := if has squote && negb (has dquote) then dquote else squote in
  ("b" ++ String quote (String.concat "" (map (repr_byte quote) b))
       ++ String quote "")%string.

(** ** Exceptions *)

Inductive Exn :=
| AssertionError (message : string).

(** ** wsproto: the protocol library behind each connection *)

Module wsproto.

Inductive ConnectionState :=
| CONNECTING | OPEN | REMOTE_CLOSING | LOCAL_CLOSING | CLOSED | REJECTING.

Inductive Opcode := CONTINUATION | TEXT | BINARY | CLOSE | PING | PONG.

(** [wsproto.events]: the two [Message] classes, the control frames, the
    close event, and every other event class of the library (the handshake
    events), kept by its printed form. *)
Inductive Event :=
| TextMessage (data : str) (frame_finished message_finished : bool)
| BytesMessage (data : bytes) (frame_finished message_finished : bool)
| Ping (payload : bytes)
| Pong (payload : bytes)
| CloseConnection (code : Z) (reason : option str)
| OtherEvent (printed : string).

(** What the layer uses of [wsproto.Connection], over the library's own
    connection state [P]: the [state] property, [receive_data] (with [None]
    for the end of the stream), one step of the [events()] generator, and
    [send]; and of [wsproto.frame_protocol.CloseReason]: the name of the
    member with a given value, if there is one.  The operations are total:
    the library turns a parse failure into a close event, and the layer
    sends a close event only in the states in which the library accepts
    it. *)
Class Library (P : Type) := {
  state : P -> ConnectionState;
  receive_data : P -> option bytes -> P;
  next_event : P -> option (Event * P);
  send : P -> Event -> bytes * P;
  CloseReason_name : Z -> option string
}.

End wsproto.

(** ** Fragmentizer *)

Module Fragmentizer.
Import wsproto.

Record t := {
  fragment_lengths : list Z;
  is_text : bool
}.

(** A bit less than 4kb to accommodate for headers. *)
Definition FRAGMENT_SIZE : Z := 4000.

Definition __init__ (fragments : list bytes) (is_text : bool) : Exn + t :=
  match fragments with
  | [] => inl (AssertionError "")
  | _ :: _ =>
      inr {| fragment_lengths := map len fragments; is_text := is_text |}
  end.

Definition msg (self : t) (data : bytes) (message_finished : bool) : Event :=
  if is_text self then
    let data_str := decode_replace data in
    TextMessage data_str true message_finished
  else
    BytesMessage data true message_finished.

(** The first loop of [__call__], over [self.fragment_lengths[:-1]], and the
    [yield] that follows it. *)
Fixpoint reuse_sizes (self : t) (content : bytes) (offset : Z) (fls : list Z)
  : list Event :=
  match fls with
  | [] => [msg self (slice_from content offset) true]
  | fl :: fls' =>
      msg self (slice content offset (offset + fl)) false
        :: reuse_sizes self content (offset + fl) fls'
  end.

(** The [while] loop of [__call__] and the [yield] that follows it. *)
Equations? rechunk (self : t) (content : bytes) (total offset : Z)
  : list Event by wf (Z.to_nat (total - offset)) lt :=
  rechunk self content total offset with Z_lt_dec offset total => {
    | left _ :=
        msg self (slice content offset (offset + FRAGMENT_SIZE)) false
          :: rechunk self content total (offset + FRAGMENT_SIZE);
    | right _ := [msg self (slice_from content offset) true] }.
Proof. unfold FRAGMENT_SIZE. lia. Qed.

Definition __call__ (self : t) (content : bytes) : list Event :=
  match content with
  | [] => []
  | _ :: _ =>
      if len content =? sum (fragment_lengths self) then
        (* message has the same length, we can reuse the same sizes *)
        reuse_sizes self content 0 (but_last (fragment_lengths self))
      else
        rechunk self content (len content - FRAGMENT_SIZE) 0
  end.

End Fragmentizer.

(** ** mitmproxy: connections, flows, events and commands *)

Module connection.
(** A transport connection, compared by identity. *)
Inductive Connection := Conn (id : nat).

Definition eqb (a b : Connection) : bool :=
  match a, b with Conn i, Conn j => Nat.eqb i j end.
End connection.

Module websocket.
Record WebSocketMessage := {
  type : wsproto.Opcode;
  from_client : bool;
  content : bytes;
  killed : bool
}.

(** [WebSocketMessage(type, from_client, content)]: a new message is not
    killed. *)
Definition WebSocketMessage__init__ (type : wsproto.Opcode) (from_client : bool)
    (content : bytes) : WebSocketMessage :=
  Build_WebSocketMessage type from_client content false.

Record WebSocketData := {
  messages : list WebSocketMessage;
  closed_by_client : option bool;
  close_code : option Z;
  close_reason : option str
}.
End websocket.

Module http.
(** The part of a flow the layer reads and writes: the WebSocket data,
    which is there when the layer runs, and the message of [flow.error]. *)
Record HTTPFlow := {
  websocket : websocket.WebSocketData;
  error : option string
}.
End http.

Module events.
(** The events that [@expect] lets through to the handlers. *)
Inductive ConnectionEvent :=
| DataReceived (connection : connection.Connection) (data : bytes)
| ConnectionClosed (connection : connection.Connection).

Definition connection_of (e : ConnectionEvent) : connection.Connection :=
  match e with DataReceived c _ | ConnectionClosed c => c end.
End events.

Module commands.
Inductive Command :=
| SendData (connection : connection.Connection) (data : bytes)
| CloseConnection (connection : connection.Connection)
| Log (message : string)
| WebsocketStartHook (flow : http.HTTPFlow)
| WebsocketMessageHook (flow : http.HTTPFlow)
| WebsocketEndHook (flow : http.HTTPFlow)
| WebsocketErrorHook (flow : http.HTTPFlow).
End commands.

(** The addons behind [WebsocketMessageHook]: given the flow, whose most
    recent message is [flow.messages[-1]], they leave that message in the
    state they return (the message is user-modifiable). *)
Class Addons := {
  websocket_message : http.HTTPFlow -> websocket.WebSocketMessage
}.

(** How the run of a generator ends: by returning, by an exception, or not
    within the given number of steps of a [for] loop over the events of the
    library. *)
Inductive Outcome (A : Type) :=
| Returned (a : A)
| Raised (e : Exn)
| Unfinished.
Arguments Returned {A} a.
Arguments Raised {A} e.
Arguments Unfinished {A}.

(** ** WebsocketConnection *)

Section Model.
Import wsproto websocket http events commands.

Context {P : Type} {lib : wsproto.Library P} {addons : Addons}.

(** A very thin wrapper around [wsproto.Connection]: the connection of the
    library, the underlying transport connection and a frame buffer for
    incomplete messages. *)
Record WebsocketConnection := {
  proto : P;
  conn : connection.Connection;
  frame_buf : list bytes
}.

Record Context := {
  client : connection.Connection;
  server : connection.Connection
}.

Inductive Handler := relay_messages_handler | done_handler.

Record WebsocketLayer := {
  context : Context;
  flow : HTTPFlow;
  client_ws : WebsocketConnection;
  server_ws : WebsocketConnection;
  _handle_event : Handler
}.

(** [src_ws], [dst_ws] and the loop variable [ws] are references to one of
    the two attributes of the layer. *)
Inductive Ref := the_client_ws | the_server_ws.

Definition deref (r : Ref) (self : WebsocketLayer) : WebsocketConnection :=
  match r with the_client_ws => client_ws self | the_server_ws => server_ws self end.

Definition assign (r : Ref) (ws : WebsocketConnection) (self : WebsocketLayer)
  : WebsocketLayer :=
  match r with
  | the_client_ws =>
      {| context := context self; flow := flow self; client_ws := ws;
         server_ws := server_ws self; _handle_event := _handle_event self |}
  | the_server_ws =>
      {| context := context self; flow := flow self; client_ws := client_ws self;
         server_ws := ws; _handle_event := _handle_event self |}
  end.

Definition with_proto (p : P) (ws : WebsocketConnection) : WebsocketConnection :=
  {| proto := p; conn := conn ws; frame_buf := frame_buf ws |}.

Definition with_frame_buf (b : list bytes) (ws : WebsocketConnection)
  : WebsocketConnection :=
  {| proto := proto ws; conn := conn ws; frame_buf := b |}.

Definition with_flow (f : HTTPFlow) (self : WebsocketLayer) : WebsocketLayer :=
  {| context := context self; flow := f; client_ws := client_ws self;
     server_ws := server_ws self; _handle_event := _handle_event self |}.

Definition with_handler (h : Handler) (self : WebsocketLayer) : WebsocketLayer :=
  {| context := context self; flow := flow self; client_ws := client_ws self;
     server_ws := server_ws self; _handle_event := h |}.

Definition with_websocket (w : WebSocketData) (f : HTTPFlow) : HTTPFlow :=
  {| websocket := w; error := error f |}.

Definition with_error (e : string) (f : HTTPFlow) : HTTPFlow :=
  {| websocket := websocket f; error := Some e |}.

Definition with_messages (ms : list WebSocketMessage) (w : WebSocketData)
  : WebSocketData :=
  {| messages := ms; closed_by_client := closed_by_client w;
     close_code := close_code w; close_reason := close_reason w |}.

(** ** Command generators

    A handler is a generator of commands that mutates the layer as it
    runs.  Its run from a layer gives the commands yielded in order, the
    layer as the run leaves it, and how the run ends. *)
Definition CommandGenerator (A : Type) : Type :=
  WebsocketLayer -> list Command * WebsocketLayer * Outcome A.

Definition ret {A} (a : A) : CommandGenerator A :=
  fun self => ([], self, Returned a).

Definition bind {A B} (m : CommandGenerator A) (k : A -> CommandGenerator B)
  : CommandGenerator B :=
  fun self =>
    match m self with
    | (cs, self1, Returned a) =>
        match k a self1 with
        | (cs', self2, o) => (cs ++ cs', self2, o)
        end
    | (cs, self1, Raised e) => (cs, self1, Raised e)
    | (cs, self1, Unfinished) => (cs, self1, Unfinished)
    end.

Definition yield (c : Command) : CommandGenerator unit :=
  fun self => ([c], self, Returned tt).

Definition raise {A} (e : Exn) : CommandGenerator A :=
  fun self => ([], self, Raised e).

Definition get_self : CommandGenerator WebsocketLayer :=
  fun self => ([], self, Returned self).

Definition update (f : WebsocketLayer -> WebsocketLayer) : CommandGenerator unit :=
  fun self => ([], f self, Returned tt).

Definition lift {A} (r : Exn + A) : CommandGenerator A :=
  match r with inl e => raise e | inr a => ret a end.

End Model.

Declare Scope gen_scope.
Delimit Scope gen_scope with gen.
Notation "x <- m ;; k" := (bind m (fun x => k))
  (at level 61, m at next level, right associativity) : gen_scope.
Notation "m ;; k" := (bind m (fun _ => k))
  (at level 61, right associativity) : gen_scope.

(** ** WebsocketLayer *)

Section Handlers.
Import wsproto websocket http events commands.
Local Open Scope gen_scope.

Context {P : Type} {lib : wsproto.Library P} {addons : Addons}.

Local Abbreviation Gen := (@CommandGenerator P).

Fixpoint for_each {A} (xs : list A) (body : A -> Gen unit)
  : Gen unit :=
  match xs with
  | [] => ret tt
  | x :: xs' => body x ;; for_each xs' body
  end.

(** [ws.send2(event)]: the library encodes the event, which may change the
    state of the connection, and the bytes go into a [SendData] command for
    the transport connection. *)
Definition send2 (ws : Ref) (event : Event) : Gen Command :=
  self <- get_self ;;
  let (data, p) := send (proto (deref ws self)) event in
  update (assign ws (with_proto p (deref ws self))) ;;
  ret (SendData (conn (deref ws self)) data).

Definition format_close_event (code : Z) (reason : option str) : string :=
  let ret :=
    match CloseReason_name code with
    | Some name => name
    | None => ("UNKNOWN_ERROR=" ++ str_of_int code)%string
    end in
  match reason with
  | Some (String _ _ as r) => (ret ++ " (reason: " ++ r ++ ")")%string
  | _ => ret
  end.

(** [isinstance(ws_event, wsproto.events.Message)], with [is_text], the
    bytes that go into the frame buffer and [message_finished]. *)
Definition as_message (ws_event : Event) : option (bool * bytes * bool) :=
  match ws_event with
  | TextMessage data _ message_finished => Some (true, encode data, message_finished)
  | BytesMessage data _ message_finished => Some (false, data, message_finished)
  | _ => None
  end.

Definition frame_buf_append (ws : Ref) (data : bytes) : Gen unit :=
  update (fun self =>
    assign ws (with_frame_buf (frame_buf (deref ws self) ++ [data]) (deref ws self)) self).

Definition frame_buf_clear (ws : Ref) : Gen unit :=
  update (fun self => assign ws (with_frame_buf [] (deref ws self)) self).

Definition messages_append (message : WebSocketMessage) : Gen unit :=
  update (fun self =>
    let w := websocket (flow self) in
    with_flow (with_websocket (with_messages (messages w ++ [message]) w) (flow self)) self).

(** [yield WebsocketMessageHook(self.flow)]: the command goes out with the
    flow, the addons run, and the generator resumes with [message], the most
    recent message of the flow, as they left it. *)
Definition yield_message_hook : Gen WebSocketMessage :=
  self <- get_self ;;
  yield (WebsocketMessageHook (flow self)) ;;
  let message := websocket_message (flow self) in
  update (fun self =>
    let w := websocket (flow self) in
    with_flow
      (with_websocket (with_messages (removelast (messages w) ++ [message]) w)
         (flow self)) self) ;;
  ret message.

Definition yield_flow (hook : HTTPFlow -> Command) : Gen unit :=
  self <- get_self ;; yield (hook (flow self)).

(** [yield dst_ws.send2(msg)]. *)
Definition yield_send2 (ws : Ref) (event : Event) : Gen unit :=
  c <- send2 ws event ;; yield c.

(** [code in {1000, 1001, 1005}]. *)
Definition normal_closure (code : Z) : bool :=
  (code =? 1000) || (code =? 1001) || (code =? 1005).

Section Body.
(** The bindings of [relay_messages] that the body of its loop uses. *)
Variable from_client : bool.

Let from_str : string := if from_client then "client" else "server".
Let src_ws : Ref := if from_client then the_client_ws else the_server_ws.
Let dst_ws : Ref := if from_client then the_server_ws else the_client_ws.

(** [isinstance(ws_event, wsproto.events.Message)], where [data] is what
    goes into the frame buffer: [ws_event.data.encode()] for a text
    message, [ws_event.data] for a binary one. *)
Definition on_message (is_text : bool) (data : bytes) (message_finished : bool)
  : Gen unit :=
  let typ := if is_text then TEXT else BINARY in
  frame_buf_append src_ws data ;;
  if message_finished then
    self <- get_self ;;
    let content := List.concat (frame_buf (deref src_ws self)) in
    fragmentizer <-
      lift (Fragmentizer.__init__ (frame_buf (deref src_ws self)) is_text) ;;
    frame_buf_clear src_ws ;;
    let message := WebSocketMessage__init__ typ from_client content in
    messages_append message ;;
    message <- yield_message_hook ;;
    if negb (killed message) then
      for_each (Fragmentizer.__call__ fragmentizer (websocket.content message))
        (yield_send2 dst_ws)
    else ret tt
  else ret tt.

(** [isinstance(ws_event, (wsproto.events.Ping, wsproto.events.Pong))],
    where [name] is the lowered name of the class of the event. *)
Definition on_ping_pong (name : string) (payload : bytes) (ws_event : Event)
  : Gen unit :=
  yield (Log ("Received WebSocket " ++ name ++ " from " ++ from_str
              ++ " (payload: " ++ repr_bytes payload ++ ")")%string) ;;
  yield_send2 dst_ws ws_event.

(** [isinstance(ws_event, wsproto.events.CloseConnection)]. *)
Definition on_close (code : Z) (reason : option str) (ws_event : Event)
  : Gen unit :=
  update (fun self =>
    let w := websocket (flow self) in
    with_flow
      (with_websocket
         {| messages := messages w; closed_by_client := Some from_client;
            close_code := Some code; close_reason := reason |}
         (flow self)) self) ;;
  for_each [the_server_ws; the_client_ws] (fun ws =>
    self <- get_self ;;
    (match state (proto (deref ws self)) with
     | OPEN | REMOTE_CLOSING =>
         (* response == original event, so no need to differentiate here. *)
         yield_send2 ws ws_event
     | _ => ret tt
     end) ;;
    self <- get_self ;;
    yield (commands.CloseConnection (conn (deref ws self)))) ;;
  (if normal_closure code then
     yield_flow WebsocketEndHook
   else
     update (fun self =>
       with_flow
         (with_error ("WebSocket Error: " ++ format_close_event code reason)
            (flow self)) self) ;;
     yield_flow WebsocketErrorHook) ;;
  update (with_handler done_handler).

(** The body of [for ws_event in src_ws.events()]. *)
Definition on_ws_event (ws_event : Event) : Gen unit :=
  match ws_event with
  | TextMessage data _ message_finished =>
      on_message true (encode data) message_finished
  | BytesMessage data _ message_finished =>
      on_message false data message_finished
  | Ping payload => on_ping_pong "ping" payload ws_event
  | Pong payload => on_ping_pong "pong" payload ws_event
  | wsproto.CloseConnection code reason => on_close code reason ws_event
  | OtherEvent printed =>
      raise (AssertionError ("Unexpected WebSocket event: " ++ printed))
  end.

End Body.

(** [for ws_event in src_ws.events()]: each turn resumes the generator of
    the library on the source connection, which may change its state. *)
Fixpoint for_events (steps : nat) (src_ws : Ref) (body : Event -> Gen unit)
  : Gen unit :=
  match steps with
  | O => fun self => ([], self, Unfinished)
  | S steps' =>
      self <- get_self ;;
      match next_event (proto (deref src_ws self)) with
      | None => ret tt
      | Some (ws_event, p) =>
          update (assign src_ws (with_proto p (deref src_ws self))) ;;
          body ws_event ;;
          for_events steps' src_ws body
      end
  end.

Definition relay_messages (steps : nat) (event : ConnectionEvent) : Gen unit :=
  self <- get_self ;;
  let from_client := connection.eqb (connection_of event) (client (context self)) in
  let src_ws := if from_client then the_client_ws else the_server_ws in
  update (fun self =>
    let data :=
      match event with
      | DataReceived _ data => Some data
      | ConnectionClosed _ => None
      end in
    assign src_ws
      (with_proto (receive_data (proto (deref src_ws self)) data) (deref src_ws self))
      self) ;;
  for_events steps src_ws (on_ws_event from_client).

Definition done (_ : ConnectionEvent) : Gen unit :=
  ret tt.

(** The layer hands each event to the handler in [self._handle_event]. *)
Definition handle_event (steps : nat) (event : ConnectionEvent)
  : Gen unit :=
  self <- get_self ;;
  match _handle_event self with
  | relay_messages_handler => relay_messages steps event
  | done_handler => done event
  end.

End Handlers.

(** ** A test double for the library and some addons

    A connection that keeps its state and a queue of events.  Received bytes
    decode to one complete binary message, the end of the stream to an
    abnormal closure; an event encodes to the bytes it carries.  The state
    follows the closing handshake of the library. *)

Module double.
Import wsproto.

Record Conn := {
  st : ConnectionState;
  queue : list Event
}.

Definition receive_data (c : Conn) (data : option bytes) : Conn :=
  match data with
  | Some d => {| st := st c; queue := queue c ++ [BytesMessage d true true] |}
  | None => {| st := CLOSED; queue := queue c ++ [CloseConnection 1006 None] |}
  end.

Definition next_event (c : Conn) : option (Event * Conn) :=
  match queue c with
  | [] => None
  | e :: q =>
      let s :=
        match e, st c with
        | CloseConnection _ _, LOCAL_CLOSING => CLOSED
        | CloseConnection _ _, OPEN => REMOTE_CLOSING
        | _, s => s
        end in
      Some (e, {| st := s; queue := q |})
  end.

Definition send (c : Conn) (e : Event) : bytes * Conn :=
  match e with
  | TextMessage d _ _ => (encode d, c)
  | BytesMessage d _ _ => (d, c)
  | Ping d | Pong d => (d, c)
  | CloseConnection _ _ =>
      ([], {| st := match st c with REMOTE_CLOSING => CLOSED | _ => LOCAL_CLOSING end;
              queue := queue c |})
  | OtherEvent _ => ([], c)
  end.

(** The members of [CloseReason]. *)
Definition CloseReason_name (code : Z) : option string :=
  match code with
  | 1000 => Some "NORMAL_CLOSURE"
  | 1001 => Some "GOING_AWAY"
  | 1002 => Some "PROTOCOL_ERROR"
  | 1003 => Some "UNSUPPORTED_DATA"
  | 1005 => Some "NO_STATUS_RCVD"
  | 1006 => Some "ABNORMAL_CLOSURE"
  | 1007 => Some "INVALID_FRAME_PAYLOAD_DATA"
  | 1008 => Some "POLICY_VIOLATION"
  | 1009 => Some "MESSAGE_TOO_BIG"
  | 1010 => Some "MANDATORY_EXT"
  | 1011 => Some "INTERNAL_ERROR"
  | 1012 => Some "SERVICE_RESTART"
  | 1013 => Some "TRY_AGAIN_LATER"
  | 1015 => Some "TLS_HANDSHAKE_FAILED"
  | _ => None
  end.

Definition lib : Library Conn := {|
  wsproto.state := st;
  wsproto.receive_data := receive_data;
  wsproto.next_event := next_event;
  wsproto.send := send;
  wsproto.CloseReason_name := CloseReason_name
|}.

Definition fresh : websocket.WebSocketMessage :=
  websocket.WebSocketMessage__init__ BINARY true [].

Definition latest (f : http.HTTPFlow) : websocket.WebSocketMessage :=
  last (websocket.messages (http.websocket f)) fresh.

(** Addons that leave the message alone, that kill it, and that replace
    its content. *)
Definition untouched : Addons := {| websocket_message := latest |}.

Definition kill : Addons := {|
  websocket_message f :=
    let m := latest f in
    websocket.Build_WebSocketMessage (websocket.type m) (websocket.from_client m)
      (websocket.content m) true
|}.

Definition rewrite_to (content : bytes) : Addons := {|
  websocket_message f :=
    let m := latest f in
    websocket.Build_WebSocketMessage (websocket.type m) (websocket.from_client m)
      content (websocket.killed m)
|}.

Definition the_client : connection.Connection := connection.Conn 1.
Definition the_server : connection.Connection := connection.Conn 2.

Definition new_flow : http.HTTPFlow := {|
  http.websocket := {|
    websocket.messages := [];
    websocket.closed_by_client := None;
    websocket.close_code := None;
    websocket.close_reason := None |};
  http.error := None
|}.

(** A layer after [start], both connections open, with the events [from_c]
    and [from_s] waiting in the client-side and the server-side
    connection. *)
Definition relaying (from_c from_s : list Event) : @WebsocketLayer Conn := {|
  context := {| client := the_client; server := the_server |};
  flow := new_flow;
  client_ws := {| proto := {| st := OPEN; queue := from_c |};
                  conn := the_client; frame_buf := [] |};
  server_ws := {| proto := {| st := OPEN; queue := from_s |};
                  conn := the_server; frame_buf := [] |};
  _handle_event := relay_messages_handler
|}.

(** The same layer once the server-side connection has read a close
    frame. *)
Definition closing_from_server : @WebsocketLayer Conn := {|
  context := {| client := the_client; server := the_server |};
  flow := new_flow;
  client_ws := {| proto := {| st := OPEN; queue := [] |};
                  conn := the_client; frame_buf := [] |};
  server_ws := {| proto := {| st := REMOTE_CLOSING; queue := [] |};
                  conn := the_server; frame_buf := [] |};
  _handle_event := relay_messages_handler
|}.

End double.

(** ** Vocabulary of the statements *)

Section Vocabulary.
Import wsproto websocket http events commands.

(** The bytes that an event carries on the wire, before framing. *)
Definition payload (e : Event) : bytes :=
  match e with
  | TextMessage data _ _ => encode data
  | BytesMessage data _ _ => data
  | Ping data | Pong data => data
  | _ => []
  end.

(** [len(s)] for a str: the number of its characters, which are the bytes
    of its encoding that are not continuation bytes. *)
Definition characters (s : str) : Z :=
  len (filter (fun b => negb (in_range 0x80 0xBF b)) (encode s)).

(** The text of a text part. *)
Definition text_of (e : Event) : str :=
  match e with TextMessage data _ _ => data | _ => "" end.

(** Whether a part is marked as the final one of its message. *)
Definition marked_final (e : Event) : bool :=
  match e with
  | TextMessage _ _ message_finished | BytesMessage _ _ message_finished =>
      message_finished
  | _ => false
  end.

(** The parts that [__call__] yields for the slices [chunks] followed by
    the slice [tail]: all marked non-final but the last. *)
Definition parts (self : Fragmentizer.t) (chunks : list bytes) (tail : bytes)
  : list Event :=
  map (fun d => Fragmentizer.msg self d false) chunks
    ++ [Fragmentizer.msg self tail true].

(** The length of the last part when [n] bytes are cut into parts of
    [FRAGMENT_SIZE]: [n mod 4000], or 4000 for a multiple of 4000. *)
Definition tail_length (n : Z) : Z :=
  if n mod Fragmentizer.FRAGMENT_SIZE =? 0 then Fragmentizer.FRAGMENT_SIZE
  else n mod Fragmentizer.FRAGMENT_SIZE.

Context {P : Type} {lib : wsproto.Library P} {addons : Addons}.

(** The three components of the run of a generator. *)
Definition emitted {A} (r : list Command * @WebsocketLayer P * Outcome A)
  : list Command := fst (fst r).
Definition layer_after {A} (r : list Command * @WebsocketLayer P * Outcome A)
  : WebsocketLayer := snd (fst r).
Definition outcome {A} (r : list Command * @WebsocketLayer P * Outcome A)
  : Outcome A := snd r.

Definition is_send (c : Command) : bool :=
  match c with SendData _ _ => true | _ => false end.

Definition is_hook (c : Command) : bool :=
  match c with
  | WebsocketStartHook _ | WebsocketMessageHook _
  | WebsocketEndHook _ | WebsocketErrorHook _ => true
  | _ => false
  end.

Definition is_close (c : Command) : bool :=
  match c with commands.CloseConnection _ => true | _ => false end.

(** A [Message] event seen as [is_text], the bytes that go into the frame
    buffer, and [message_finished]. *)
Definition message_of (ws_event : Event) : option (bool * bytes * bool) :=
  match ws_event with
  | TextMessage data _ message_finished => Some (true, encode data, message_finished)
  | BytesMessage data _ message_finished => Some (false, data, message_finished)
  | _ => None
  end.

(** The connection on which the events of a peer arrive, and the one they
    are relayed to. *)
Definition source (from_client : bool) : Ref :=
  if from_client then the_client_ws else the_server_ws.
Definition destination (from_client : bool) : Ref :=
  if from_client then the_server_ws else the_client_ws.

(** The message that a finished fragment [data] completes on the source
    connection, and the layer at the moment the message hook is yielded:
    the frame buffer is cleared and the message is the last of the flow. *)
Definition completed (self : @WebsocketLayer P) (from_client is_text : bool)
    (data : bytes) : WebSocketMessage :=
  WebSocketMessage__init__ (if is_text then TEXT else BINARY) from_client
    (List.concat (frame_buf (deref (source from_client) self) ++ [data])).

Definition at_hook (self : @WebsocketLayer P) (from_client is_text : bool)
    (data : bytes) : WebsocketLayer :=
  let src_ws := source from_client in
  let w := websocket (flow self) in
  with_flow
    (with_websocket
       (with_messages (messages w ++ [completed self from_client is_text data]) w)
       (flow self))
    (assign src_ws (with_frame_buf [] (deref src_ws self)) self).

(** The same layer when the generator resumes, the message as the addons
    left it. *)
Definition resumed (self : @WebsocketLayer P) (from_client is_text : bool)
    (data : bytes) : WebsocketLayer :=
  let hooked := at_hook self from_client is_text data in
  let w := websocket (flow self) in
  with_flow
    (with_websocket
       (with_messages (messages w ++ [websocket_message (flow hooked)]) w)
       (flow self))
    hooked.

(** What the processing of one connection contributes when a close event
    is observed: the close event, if the state of the connection allows
    it, and the close of the transport. *)
Definition close_leg (ws : @WebsocketConnection P) (ws_event : Event)
  : list Command :=
  (match state (proto ws) with
   | OPEN | REMOTE_CLOSING => [SendData (conn ws) (fst (send (proto ws) ws_event))]
   | _ => []
   end) ++ [commands.CloseConnection (conn ws)].

(** The connection after that processing, and the flow once the close is
    recorded on it. *)
Definition closed_leg (ws : @WebsocketConnection P) (ws_event : Event)
  : WebsocketConnection :=
  match state (proto ws) with
  | OPEN | REMOTE_CLOSING => with_proto (snd (send (proto ws) ws_event)) ws
  | _ => ws
  end.

Definition closed_flow (from_client : bool) (code : Z) (reason : option str)
    (f : HTTPFlow) : HTTPFlow :=
  {| websocket :=
       {| messages := messages (websocket f);
          closed_by_client := Some from_client;
          close_code := Some code;
          close_reason := reason |};
     error :=
       if normal_closure code then error f
       else Some ("WebSocket Error: " ++ format_close_event code reason)%string |}.

(** The description of a close that the specification asks for: the name
    of the close reason, or the code itself tagged as an unknown error,
    followed by the textual reason if there is one. *)
Definition close_description (code : Z) (reason : option str) : string :=
  ((match CloseReason_name code with
    | Some name => name
    | None => "UNKNOWN_ERROR=" ++ str_of_int code
    end)
   ++ (match reason with
       | None | Some EmptyString => ""
       | Some r => " (reason: " ++ r ++ ")"
       end))%string.

(** The log line for a control frame. *)
Definition control_log (name : string) (from_client : bool) (data : bytes)
  : string :=
  ("Received WebSocket " ++ name ++ " from "
     ++ (if from_client then "client" else "server")
     ++ " (payload: " ++ repr_bytes data ++ ")")%string.

End Vocabulary.

(** Contents for the examples: [a] followed by 2000 times [e] with an acute
    accent, 4001 bytes in UTF-8, so that the byte at offset 4000 is the
    second byte of the last character. *)
Definition accented : bytes := x61 :: List.concat (repeat [xc3; xa9] (Z.to_nat 2000)).


(** ** Further vocabulary *)

(** A content of ASCII bytes only. *)
Definition ascii_only (content : bytes) : Prop :=
  Forall (fun b => (Byte.to_N b < 0x80)%N) content.

Section Traces.
Import wsproto websocket http events commands.

Context {P : Type} {lib : wsproto.Library P}.

(** The bytes that a connection encodes a sequence of events to, one
    after the other, and the connection of the library afterwards. *)
Fixpoint send_all (p : P) (evs : list Event) : list bytes * P :=
  match evs with
  | [] => ([], p)
  | e :: evs' =>
      let (d, p1) := send p e in
      let (ds, p2) := send_all p1 evs' in
      (d :: ds, p2)
  end.

(** The [events()] generator of the library yields [evs] from [p] and then
    stops, leaving [p']. *)
Inductive yields : P -> list Event -> P -> Prop :=
| yields_nil p : next_event p = None -> yields p [] p
| yields_cons p e p1 evs p' :
    next_event p = Some (e, p1) -> yields p1 evs p' -> yields p (e :: evs) p'.




Definition is_message_hook (c : Command) : bool :=
  match c with WebsocketMessageHook _ => true | _ => false end.

(** The hooks that end a session. *)
Definition is_final_hook (c : Command) : bool :=
  match c with WebsocketEndHook _ | WebsocketErrorHook _ => true | _ => false end.

(** A command that goes to a transport connection goes to one of the two
    connections of the layer. *)
Definition addressed (self : @WebsocketLayer P) (c : Command) : Prop :=
  match c with
  | SendData k _ | commands.CloseConnection k =>
      k = conn (client_ws self) \/ k = conn (server_ws self)
  | _ => True
  end.

(** A fragment of a binary message that is not the last one. *)
Definition binary_fragment (data : bytes) (frame_finished : bool) : Event :=
  BytesMessage data frame_finished false.

(** [evs] are fragments that do not finish a message, carrying [ds]. *)
Definition unfinished (evs : list Event) (ds : list bytes) : Prop :=
  Forall2 (fun e d => exists is_text, message_of e = Some (is_text, d, false)) evs ds.

(** The layer with the state [p] of the library and the frame buffer [buf]
    on the side the events come from. *)
Definition source_with (p : P) (buf : list bytes) (from_client : bool)
    (self : @WebsocketLayer P) : WebsocketLayer :=
  assign (source from_client)
    {| proto := p; conn := conn (deref (source from_client) self); frame_buf := buf |}
    self.

End Traces.

(** A second test double, which reads one frame from the bytes it receives:
    the first byte tells the kind of the frame, as the first byte of a frame
    does, and the rest is the payload. *)
Module framed.
Import wsproto.

Definition frame (kind : byte) (data : bytes) : list Event :=
  match kind with
  | x01 => [TextMessage (string_of_list_byte data) true false]
  | x81 => [TextMessage (string_of_list_byte data) true true]
  | x02 => [BytesMessage data true false]
  | x82 => [BytesMessage data true true]
  | x88 => [CloseConnection 1000 None]
  | x89 => [Ping data]
  | x8a => [Pong data]
  | _ => []
  end.

Definition receive_data (c : double.Conn) (data : option bytes) : double.Conn :=
  match data with
  | Some [] => c
  | Some (kind :: payload) =>
      {| double.st := double.st c; double.queue := double.queue c ++ frame kind payload |}
  | None => double.receive_data c None
  end.

Definition lib : wsproto.Library double.Conn := {|
  wsproto.state := double.st;
  wsproto.receive_data := receive_data;
  wsproto.next_event := double.next_event;
  wsproto.send := double.send;
  wsproto.CloseReason_name := double.CloseReason_name
|}.
End framed.

(** A third test double, which reads frames as [framed] does but, as the
    library does with bytes that are no frame of the protocol, reports a
    frame of an unknown kind as a close with the code of a protocol
    error. *)
Module strict.
Import wsproto.

Definition frame (kind : byte) (data : bytes) : list Event :=
  match framed.frame kind data with
  | [] => [CloseConnection 1002 (Some "Invalid opcode")]
  | evs => evs
  end.

Definition receive_data (c : double.Conn) (data : option bytes) : double.Conn :=
  match data with
  | Some [] => c
  | Some (kind :: payload) =>
      {| double.st := double.st c; double.queue := double.queue c ++ frame kind payload |}
  | None => double.receive_data c None
  end.

Definition lib : wsproto.Library double.Conn := {|
  wsproto.state := double.st;
  wsproto.receive_data := receive_data;
  wsproto.next_event := double.next_event;
  wsproto.send := double.send;
  wsproto.CloseReason_name := double.CloseReason_name
|}.
End strict.

(** ** The start of the layer *)

(** [s.encode("ascii", "replace")]: a question mark for each character that
    is not ASCII, that is, for the first byte of its encoding. *)
Definition encode_ascii_replace (s : str) : bytes :=
  flat_map
    (fun b =>
       if (Byte.to_N b <? 0x80)%N then [b]
       else if in_range 0x80 0xBF b then []
       else [x3f])
    (encode s).

(** [s.split(sep, 1)[0]]: [s] up to the first [sep], all of [s] if there is
    none. *)
Fixpoint split_first (sep : ascii) (s : str) : str :=
  match s with
  | EmptyString => EmptyString
  | String a s' => if Ascii.eqb a sep then EmptyString else String a (split_first sep s')
  end.

Module handshake.
Inductive ConnectionType := CLIENT | SERVER.

(** What [start] uses of the library, where [E] is the type of the
    extensions: [wsproto.utilities.split_comma_header], the name of
    [PerMessageDeflate], [finalize] on a new [PerMessageDeflate] with an
    offer, which gives the extension finalized or raises (no result), and a
    new connection of a type with extensions; and the two methods of str
    whose result depends on the tables of Unicode, [strip] and [repr]. *)
Class Library (P E : Type) := {
  split_comma_header : bytes -> list str;
  PerMessageDeflate_name : str;
  PerMessageDeflate_finalize : str -> option E;
  Connection__init__ : ConnectionType -> list E -> P;
  strip : str -> str;
  repr : str -> string
}.
End handshake.

Section Start.
Import wsproto websocket http events commands handshake.

Context {P E : Type} {hs : handshake.Library P E}.

(** [WebsocketConnection(connection_type, extensions, conn=conn)]. *)
Definition WebsocketConnection__init__ (connection_type : ConnectionType)
    (extensions : list E) (conn : connection.Connection) : @WebsocketConnection P :=
  {| proto := Connection__init__ connection_type extensions;
     conn := conn;
     frame_buf := [] |}.

(** How [start] ends: it returns, and leaves the layer with its two
    connections and [relay_messages] as handler; or [finalize] raises on an
    offer, and the exception leaves [start] where it is, before the
    connections are made and with [start] still the handler. *)
Inductive Started :=
| Relaying (self : @WebsocketLayer P)
| FinalizeRaised (ext : str).

(** The loop over the extensions of the header, on the two lists of
    extensions and the commands yielded so far: the commands yielded, and
    the two lists, or the offer on which [finalize] raises. *)
Fixpoint for_extensions (exts : list str) (client_extensions server_extensions : list E)
    (yielded : list Command) : list Command * (str + list E * list E) :=
  match exts with
  | [] => (yielded, inr (client_extensions, server_extensions))
  | ext :: exts' =>
      let ext_name := strip (split_first ";" ext) in
      if String.eqb ext_name PerMessageDeflate_name then
        match PerMessageDeflate_finalize ext with
        | None => (yielded, inl ext)
        | Some client_deflate =>
            match PerMessageDeflate_finalize ext with
            | None => (yielded, inl ext)
            | Some server_deflate =>
                for_extensions exts' (client_extensions ++ [client_deflate])
                  (server_extensions ++ [server_deflate]) yielded
            end
        end
      else
        for_extensions exts' client_extensions server_extensions
          (yielded
             ++ [Log ("Ignoring unknown WebSocket extension " ++ repr ext_name ++ ".")%string])
  end.

(** [start], for a layer made of a context and a flow, where [ext_header]
    is [flow.response.headers.get("Sec-WebSocket-Extensions", "")]: the
    commands it yields and how it ends. *)
Definition start (context : Context) (flow : HTTPFlow) (ext_header : str)
  : list Command * Started :=
  let (yielded, extensions) :=
    match ext_header with
    | EmptyString => ([], inr ([], []))
    | String _ _ =>
        for_extensions (split_comma_header (encode_ascii_replace ext_header)) [] [] []
    end in
  match extensions with
  | inl ext => (yielded, FinalizeRaised ext)
  | inr (client_extensions, server_extensions) =>
      (yielded ++ [WebsocketStartHook flow],
       Relaying
         {| context := context;
            flow := flow;
            client_ws :=
              WebsocketConnection__init__ SERVER client_extensions (client context);
            server_ws :=
              WebsocketConnection__init__ CLIENT server_extensions (server context);
            _handle_event := relay_messages_handler |})
  end.

(** The extensions that the header offers to [start]. *)
Definition offered (ext_header : str) : list str :=
  match ext_header with
  | EmptyString => []
  | String _ _ => split_comma_header (encode_ascii_replace ext_header)
  end.

(** Whether an extension of the header is the one the layer supports. *)
Definition supported (ext : str) : bool :=
  String.eqb (strip (split_first ";" ext)) PerMessageDeflate_name.

(** An offer that [start] gets past: one of an extension that it does not
    support, or one that [finalize] accepts. *)
Definition passes (ext : str) : Prop :=
  supported ext = true -> PerMessageDeflate_finalize ext <> None.

(** The log entry of [start] for an extension that it does not support. *)
Definition ignoring (ext : str) : Command :=
  Log ("Ignoring unknown WebSocket extension "
         ++ repr (strip (split_first ";" ext)) ++ ".")%string.

End Start.

(** A test double for the start: extensions are kept as their offers, an
    offer with a window size that is not a number is refused, and text is
    taken for ASCII. *)
Module double_start.
Definition is_space (a : ascii) : bool :=
  let n := N_of_ascii a in
  ((9 <=? n) && (n <=? 13) || (28 <=? n) && (n <=? 32))%N.

Fixpoint lstrip (s : str) : str :=
  match s with
  | String a s' => if is_space a then lstrip s' else s
  | EmptyString => EmptyString
  end.

Fixpoint string_rev (s acc : str) : str :=
  match s with
  | EmptyString => acc
  | String a s' => string_rev s' (String a acc)
  end.

Definition strip (s : str) : str :=
  string_rev (lstrip (string_rev (lstrip s) EmptyString)) EmptyString.

Fixpoint split_comma (s piece : str) : list str :=
  match s with
  | EmptyString => [strip (string_rev piece EmptyString)]
  | String a s' =>
      if Ascii.eqb a ","%char
      then strip (string_rev piece EmptyString) :: split_comma s' EmptyString
      else split_comma s' (String a piece)
  end.

Definition lib : handshake.Library double.Conn str := {|
  handshake.split_comma_header b := split_comma (string_of_list_byte b) EmptyString;
  handshake.PerMessageDeflate_name := "permessage-deflate";
  handshake.PerMessageDeflate_finalize offer :=
    match index 0 "window_bits=abc" offer with
    | Some _ => None
    | None => Some offer
    end;
  handshake.Connection__init__ _ _ := {| double.st := wsproto.OPEN; double.queue := [] |};
  handshake.strip := strip;
  handshake.repr s := String squote (s ++ String squote EmptyString)
|}.
End double_start.

(** * Properties *)

(** ** Slices *)

Lemma len_nonneg {A} (s : list A) : 0 <= len s.
Proof. unfold len. lia. Qed.

Lemma len_app {A} (s t : list A) : len (s ++ t) = len s + len t.
Proof. unfold len. rewrite length_app. lia. Qed.

Lemma len_skipn {A} (s : list A) (a : Z) :
  0 <= a <= len s -> len (skipn (Z.to_nat a) s) = len s - a.
Proof. unfold len. intros Ha. rewrite length_skipn. lia. Qed.

Lemma len_firstn {A} (s : list A) (n : Z) :
  0 <= n <= len s -> len (firstn (Z.to_nat n) s) = n.
Proof. unfold len. intros Hn. rewrite length_firstn. lia. Qed.

Lemma slice_inside {A} (s : list A) (a n : Z) :
  0 <= a -> 0 <= n -> a + n <= len s ->
  slice s a (a + n) = firstn (Z.to_nat n) (skipn (Z.to_nat a) s).
Proof.
  intros Ha Hn Hle. unfold slice, slice_index.
  destruct (Z.ltb_spec a 0); [lia |].
  destruct (Z.ltb_spec (a + n) 0); [lia |].
  rewrite !Z.min_l by lia. f_equal. f_equal. lia.
Qed.

Lemma slice_from_inside {A} (s : list A) (a : Z) :
  0 <= a <= len s -> slice_from s a = skipn (Z.to_nat a) s.
Proof.
  intros Ha. unfold slice_from, slice_index.
  destruct (Z.ltb_spec a 0); [lia |]. now rewrite Z.min_l by lia.
Qed.

Lemma skipn_step {A} (s : list A) (a n : Z) :
  0 <= a -> 0 <= n ->
  firstn (Z.to_nat n) (skipn (Z.to_nat a) s) ++ skipn (Z.to_nat (a + n)) s
  = skipn (Z.to_nat a) s.
Proof.
  intros Ha Hn.
  replace (Z.to_nat (a + n)) with (Z.to_nat n + Z.to_nat a)%nat by lia.
  rewrite <- skipn_skipn. apply firstn_skipn.
Qed.

Lemma sum_app (xs ys : list Z) : sum (xs ++ ys) = sum xs + sum ys.
Proof. induction xs as [| x xs IH]; simpl; [reflexivity | rewrite IH; lia]. Qed.

Lemma sum_nonneg (xs : list Z) : Forall (fun x => 0 <= x) xs -> 0 <= sum xs.
Proof. induction 1; simpl; lia. Qed.

(** ** Fragmentizer *)

Lemma reuse_sizes_parts (self : Fragmentizer.t) (content : bytes) (fls : list Z) :
  Forall (fun fl => 0 <= fl) fls ->
  forall offset, 0 <= offset -> offset + sum fls <= len content ->
  exists chunks,
    map len chunks = fls /\
    List.concat chunks ++ skipn (Z.to_nat (offset + sum fls)) content
      = skipn (Z.to_nat offset) content /\
    Fragmentizer.reuse_sizes self content offset fls
      = parts self chunks (skipn (Z.to_nat (offset + sum fls)) content).
Proof.
  induction 1 as [| fl fls Hfl Hfls IH]; intros offset Hoff Hle; simpl in *.
  - exists []. rewrite Z.add_0_r. repeat split.
    unfold parts. simpl. now rewrite slice_from_inside by lia.
  - pose proof (sum_nonneg _ Hfls).
    destruct (IH (offset + fl)) as (chunks & Hlen & Hcat & Hrun); [lia | lia |].
    exists (firstn (Z.to_nat fl) (skipn (Z.to_nat offset) content) :: chunks).
    rewrite Z.add_assoc. repeat split.
    + simpl. rewrite Hlen. f_equal.
      rewrite len_firstn; [reflexivity |]. rewrite len_skipn; lia.
    + simpl. rewrite <- app_assoc, Hcat. now apply skipn_step.
    + rewrite Hrun. unfold parts. simpl. now rewrite slice_inside by lia.
Qed.

Lemma tail_length_step (r : Z) :
  tail_length (r - Fragmentizer.FRAGMENT_SIZE) = tail_length r.
Proof.
  unfold tail_length.
  replace (r - Fragmentizer.FRAGMENT_SIZE)
    with (r + (-1) * Fragmentizer.FRAGMENT_SIZE) by lia.
  now rewrite Z.mod_add by discriminate.
Qed.

Lemma tail_length_small (r : Z) :
  0 < r <= Fragmentizer.FRAGMENT_SIZE -> tail_length r = r.
Proof.
  unfold tail_length, Fragmentizer.FRAGMENT_SIZE. intros Hr.
  destruct (Z.eq_dec r 4000) as [-> | Hne]; [reflexivity |].
  rewrite Z.mod_small by lia.
  destruct (Z.eqb_spec r 0); [lia | reflexivity].
Qed.

Lemma rechunk_parts (self : Fragmentizer.t) (content : bytes) (n : nat) :
  forall offset,
  0 <= offset < len content ->
  (Z.to_nat (len content - offset) <= n)%nat ->
  exists chunks tail,
    List.concat chunks ++ tail = skipn (Z.to_nat offset) content /\
    Forall (fun d => len d = Fragmentizer.FRAGMENT_SIZE) chunks /\
    len tail = tail_length (len content - offset) /\
    Fragmentizer.rechunk self content (len content - Fragmentizer.FRAGMENT_SIZE) offset
      = parts self chunks tail.
Proof.
  assert (HF : Fragmentizer.FRAGMENT_SIZE = 4000) by reflexivity.
  induction n as [| n IH]; intros offset Hoff Hn; [lia |].
  rewrite Fragmentizer.rechunk_equation_1.
  destruct (Z_lt_dec offset (len content - Fragmentizer.FRAGMENT_SIZE)) as [Hlt | Hge];
    cbn [Fragmentizer.rechunk_unfold_clause_1].
  - destruct (IH (offset + Fragmentizer.FRAGMENT_SIZE))
      as (chunks & tail & Hcat & Hall & Htail & Hrun); [lia | lia |].
    exists (firstn (Z.to_nat Fragmentizer.FRAGMENT_SIZE)
              (skipn (Z.to_nat offset) content) :: chunks), tail.
    repeat split.
    + cbn [List.concat]. rewrite <- app_assoc, Hcat. apply skipn_step; lia.
    + constructor; [| exact Hall].
      rewrite len_firstn; [reflexivity |]. rewrite len_skipn; lia.
    + rewrite Htail, <- (tail_length_step (len content - offset)). f_equal. lia.
    + rewrite Hrun. unfold parts. cbn [map app]. now rewrite slice_inside by lia.
  - exists [], (skipn (Z.to_nat offset) content). repeat split.
    + constructor.
    + rewrite len_skipn by lia. symmetry. apply tail_length_small. lia.
    + unfold parts. cbn [map app]. now rewrite slice_from_inside by lia.
Qed.

Lemma parts_marked_final (self : Fragmentizer.t) (chunks : list bytes) (tail : bytes) :
  map marked_final (parts self chunks tail)
  = repeat false (List.length chunks) ++ [true].
Proof.
  unfold parts, Fragmentizer.msg. rewrite map_app, map_map. f_equal.
  - induction chunks as [| d chunks IH]; simpl; [reflexivity |].
    rewrite IH. now destruct (Fragmentizer.is_text self).
  - simpl. now destruct (Fragmentizer.is_text self).
Qed.

Lemma payload_msg (self : Fragmentizer.t) (d : bytes) (final : bool) :
  payload (Fragmentizer.msg self d final)
  = if Fragmentizer.is_text self then utf8_replace d else d.
Proof.
  unfold Fragmentizer.msg. destruct (Fragmentizer.is_text self); simpl; [| reflexivity].
  unfold encode, decode_replace. apply list_byte_of_string_of_list_byte.
Qed.

Lemma parts_payload_binary (self : Fragmentizer.t) (chunks : list bytes) (tail : bytes) :
  Fragmentizer.is_text self = false ->
  map payload (parts self chunks tail) = chunks ++ [tail].
Proof.
  intros Hbin. unfold parts. rewrite map_app, map_map. f_equal.
  - rewrite <- (map_id chunks) at 2. apply map_ext. intros d.
    now rewrite payload_msg, Hbin.
  - simpl. now rewrite payload_msg, Hbin.
Qed.

Lemma init_inr (fragments : list bytes) (is_text : bool) (self : Fragmentizer.t) :
  Fragmentizer.__init__ fragments is_text = inr self ->
  fragments <> [] /\
  self = {| Fragmentizer.fragment_lengths := map len fragments;
            Fragmentizer.is_text := is_text |}.
Proof.
  destruct fragments as [| f fs]; [discriminate |].
  intros [= <-]. split; [discriminate | reflexivity].
Qed.

Lemma call_same_length (self : Fragmentizer.t) (content : bytes) :
  Forall (fun fl => 0 <= fl) (Fragmentizer.fragment_lengths self) ->
  content <> [] ->
  len content = sum (Fragmentizer.fragment_lengths self) ->
  exists chunks tail,
    List.concat chunks ++ tail = content /\
    map len (chunks ++ [tail]) = Fragmentizer.fragment_lengths self /\
    Fragmentizer.__call__ self content = parts self chunks tail.
Proof.
  remember (Fragmentizer.fragment_lengths self) as lens eqn:Elens.
  intros Hpos Hne Hlen.
  assert (Hlens : lens <> []).
  { intros ->. destruct content; [congruence | discriminate]. }
  pose proof (app_removelast_last 0 Hlens) as Hsplit.
  assert (Hpos' : Forall (fun fl => 0 <= fl) (removelast lens)).
  { rewrite Hsplit in Hpos. apply Forall_app in Hpos. tauto. }
  assert (Hsum : sum lens = sum (removelast lens) + last lens 0).
  { rewrite Hsplit at 1. rewrite sum_app. simpl. lia. }
  assert (Hlast : 0 <= last lens 0).
  { rewrite Hsplit in Hpos. apply Forall_app in Hpos as [_ Hl]. now inversion Hl. }
  pose proof (sum_nonneg _ Hpos') as Hinit.
  destruct (reuse_sizes_parts self content (removelast lens) Hpos' 0)
    as (chunks & Hchunks & Hcat & Hrun); [lia | lia |].
  rewrite Z.add_0_l in Hcat, Hrun.
  exists chunks, (skipn (Z.to_nat (sum (removelast lens))) content).
  split; [exact Hcat | split].
  - rewrite map_app, Hchunks. etransitivity; [| symmetry; exact Hsplit].
    f_equal. cbn [map]. f_equal. rewrite len_skipn; lia.
  - unfold Fragmentizer.__call__. destruct content as [| b content]; [congruence |].
    rewrite <- Elens, Hlen, Z.eqb_refl. exact Hrun.
Qed.

(** C1, as amended.  A fragmentizer built from the fragments of a message
    and called on a non-empty content whose length is the sum of the recorded
    fragment lengths cuts the content into consecutive slices whose lengths
    are the recorded lengths, in order, and yields one part per slice, each
    marked non-final except the last, which is marked final.  The payload of a
    binary part is its slice; that of a text part is its slice decoded with
    [errors="replace"]. *)
Theorem exact_replay (fragments : list bytes) (is_text : bool)
    (self : Fragmentizer.t) (content : bytes) :
  Fragmentizer.__init__ fragments is_text = inr self ->
  content <> [] ->
  len content = sum (map len fragments) ->
  exists chunks tail,
    List.concat chunks ++ tail = content /\
    map len (chunks ++ [tail]) = map len fragments /\
    Fragmentizer.__call__ self content = parts self chunks tail /\
    map marked_final (Fragmentizer.__call__ self content)
      = repeat false (List.length fragments - 1) ++ [true] /\
    (is_text = false ->
     map (fun part => len (payload part)) (Fragmentizer.__call__ self content)
       = map len fragments).
Proof.
  intros Hinit Hne Hlen. apply init_inr in Hinit as [Hfr ->].
  destruct (call_same_length
              {| Fragmentizer.fragment_lengths := map len fragments;
                 Fragmentizer.is_text := is_text |} content)
    as (chunks & tail & Hcat & Hmap & Hcall); cbn [Fragmentizer.fragment_lengths].
  - apply Forall_forall. intros x Hx.
    apply in_map_iff in Hx as (d & <- & _). apply len_nonneg.
  - exact Hne.
  - exact Hlen.
  - cbn [Fragmentizer.fragment_lengths] in Hmap.
    exists chunks, tail. repeat split.
    + exact Hcat.
    + exact Hmap.
    + exact Hcall.
    + rewrite Hcall, parts_marked_final. do 2 f_equal.
      apply (f_equal (@List.length Z)) in Hmap.
      rewrite !length_map, length_app in Hmap. simpl in Hmap.
      unfold bytes in *. lia.
    + intros ->. rewrite Hcall, <- map_map, parts_payload_binary by reflexivity.
      exact Hmap.
Qed.

(** [exact_replay] on the text message [hello] received as the fragments
    [he], [ll] and [o]. *)
Lemma exact_replay_witness :
  exists chunks tail,
    List.concat chunks ++ tail = [x68; x65; x6c; x6c; x6f] /\
    map len (chunks ++ [tail]) = [2; 2; 1] /\
    Fragmentizer.__call__
      {| Fragmentizer.fragment_lengths := [2; 2; 1]; Fragmentizer.is_text := true |}
      [x68; x65; x6c; x6c; x6f]
    = parts {| Fragmentizer.fragment_lengths := [2; 2; 1]; Fragmentizer.is_text := true |}
        chunks tail.
Proof.
  destruct (exact_replay [[x68; x65]; [x6c; x6c]; [x6f]] true
              {| Fragmentizer.fragment_lengths := [2; 2; 1]; Fragmentizer.is_text := true |}
              [x68; x65; x6c; x6c; x6f])
    as (chunks & tail & H1 & H2 & H3 & _).
  - reflexivity.
  - discriminate.
  - reflexivity.
  - exists chunks, tail. exact (conj H1 (conj H2 H3)).
Defined.

(** C1 fails as stated: a message received as one empty fragment has a
    content whose length, 0, is the sum of the recorded lengths, [0], and
    [__call__] yields no part for it, where the profile has one entry. *)
Lemma exact_replay_empty_message :
  Fragmentizer.__init__ [[]] false
    = inr {| Fragmentizer.fragment_lengths := [0]; Fragmentizer.is_text := false |} /\
  len (@nil byte) = sum [0] /\
  Fragmentizer.__call__
    {| Fragmentizer.fragment_lengths := [0]; Fragmentizer.is_text := false |} []
    = [] /\
  map (fun part => len (payload part))
    (Fragmentizer.__call__
       {| Fragmentizer.fragment_lengths := [0]; Fragmentizer.is_text := false |} [])
    <> [0].
Proof. repeat split. discriminate. Qed.

(** C2, as amended.  Called on a non-empty content whose length differs from
    the sum of the recorded fragment lengths, the fragmentizer cuts the
    content into consecutive slices, all of length exactly 4000 except the
    last, whose length is the length of the content modulo 4000, or 4000 when
    that length is a multiple of 4000, and yields one part per slice, of
    which exactly the last is marked final.  The payload of a binary part is
    its slice; that of a text part is its slice decoded with
    [errors="replace"]. *)
Theorem rechunk_bound (self : Fragmentizer.t) (content : bytes) :
  content <> [] ->
  len content <> sum (Fragmentizer.fragment_lengths self) ->
  exists chunks tail,
    List.concat chunks ++ tail = content /\
    Forall (fun d => len d = 4000) chunks /\
    len tail = (if len content mod 4000 =? 0 then 4000 else len content mod 4000) /\
    Fragmentizer.__call__ self content = parts self chunks tail /\
    map marked_final (Fragmentizer.__call__ self content)
      = repeat false (List.length chunks) ++ [true] /\
    (Fragmentizer.is_text self = false ->
     map payload (Fragmentizer.__call__ self content) = chunks ++ [tail]).
Proof.
  intros Hne Hlen.
  assert (Hpos : 0 < len content).
  { destruct content; [congruence |]. unfold len. simpl. lia. }
  destruct (rechunk_parts self content (Z.to_nat (len content)) 0)
    as (chunks & tail & Hcat & Hall & Htail & Hrun); [lia | lia |].
  assert (Hcall : Fragmentizer.__call__ self content = parts self chunks tail).
  { unfold Fragmentizer.__call__. destruct content as [| b content]; [congruence |].
    destruct (Z.eqb_spec (len (b :: content)) (sum (Fragmentizer.fragment_lengths self)));
      [contradiction | exact Hrun]. }
  exists chunks, tail. repeat split.
  - exact Hcat.
  - exact Hall.
  - rewrite Htail, Z.sub_0_r. reflexivity.
  - exact Hcall.
  - rewrite Hcall. apply parts_marked_final.
  - intros Hbin. rewrite Hcall. now apply parts_payload_binary.
Qed.

(** C2 fails as stated for a text message: a message received as the one
    fragment [a] and edited to [a] followed by 2000 accented characters, 4001
    bytes, is cut after 4000 bytes, in the middle of the last character.  The
    first part is the decoding of the first 4000 bytes with a replacement
    character for the cut one: 2001 characters, 4002 bytes once encoded, not
    4000; the last part is one replacement character, 3 bytes. *)
Lemma rechunk_cuts_character :
  Fragmentizer.__init__ [[x61]] true
    = inr {| Fragmentizer.fragment_lengths := [1]; Fragmentizer.is_text := true |} /\
  len accented = 4001 /\
  len accented <> sum [1] /\
  map marked_final
    (Fragmentizer.__call__
       {| Fragmentizer.fragment_lengths := [1]; Fragmentizer.is_text := true |} accented)
    = [false; true] /\
  map (fun part => len (payload part))
    (Fragmentizer.__call__
       {| Fragmentizer.fragment_lengths := [1]; Fragmentizer.is_text := true |} accented)
    = [4002; 3] /\
  map (fun part => characters (text_of part))
    (Fragmentizer.__call__
       {| Fragmentizer.fragment_lengths := [1]; Fragmentizer.is_text := true |} accented)
    = [2001; 1].
Proof. repeat split; vm_compute; congruence. Qed.

(** [rechunk_bound] on a binary message of 1000 bytes grown to 8500. *)
Lemma rechunk_bound_witness :
  exists chunks tail,
    List.concat chunks ++ tail = repeat x61 (Z.to_nat 8500) /\
    Forall (fun d => len d = 4000) chunks /\
    len tail = 500 /\
    map marked_final
      (Fragmentizer.__call__
         {| Fragmentizer.fragment_lengths := [1000]; Fragmentizer.is_text := false |}
         (repeat x61 (Z.to_nat 8500)))
      = repeat false (List.length chunks) ++ [true].
Proof.
  destruct (rechunk_bound
              {| Fragmentizer.fragment_lengths := [1000]; Fragmentizer.is_text := false |}
              (repeat x61 (Z.to_nat 8500)))
    as (chunks & tail & H1 & H2 & H3 & _ & H5 & _).
  - vm_compute. discriminate.
  - vm_compute. discriminate.
  - exists chunks, tail. exact (conj H1 (conj H2 (conj H3 H5))).
Defined.

(** The scenarios of the specification. *)

Example hello_in_three_fragments :
  Fragmentizer.__call__
    {| Fragmentizer.fragment_lengths := [2; 2; 1]; Fragmentizer.is_text := true |}
    (encode "hello")
  = [wsproto.TextMessage "he" true false; wsproto.TextMessage "ll" true false;
     wsproto.TextMessage "o" true true].
Proof. reflexivity. Qed.

Example rewritten_with_the_same_length :
  Fragmentizer.__call__
    {| Fragmentizer.fragment_lengths := [9000]; Fragmentizer.is_text := false |}
    (repeat x62 (Z.to_nat 9000))
  = [wsproto.BytesMessage (repeat x62 (Z.to_nat 9000)) true true].
Proof. vm_compute. reflexivity. Qed.

Example grown_to_8500_bytes :
  map (fun part => (len (payload part), marked_final part))
    (Fragmentizer.__call__
       {| Fragmentizer.fragment_lengths := [1000]; Fragmentizer.is_text := false |}
       (repeat x62 (Z.to_nat 8500)))
  = [(4000, false); (4000, false); (500, true)].
Proof. vm_compute. reflexivity. Qed.

(** A text part carries its slice decoded with [errors="replace"]: when an
    edit of the same length moves the boundary of a character, the parts are
    not the slices.  Here [ab], received as two fragments, is edited to one
    accented character of two bytes. *)
Example same_length_edit_of_text :
  Fragmentizer.__call__
    {| Fragmentizer.fragment_lengths := [1; 1]; Fragmentizer.is_text := true |}
    [xc3; xa9]
  = [wsproto.TextMessage (string_of_list_byte U_FFFD) true false;
     wsproto.TextMessage (string_of_list_byte U_FFFD) true true].
Proof. reflexivity. Qed.

(** ** The layer *)

(** Runs the straight-line part of a generator on a layer given by its
    fields. *)
Ltac run_layer :=
  cbv [bind ret yield raise lift get_self update yield_flow
       frame_buf_append frame_buf_clear messages_append yield_message_hook
       source destination at_hook resumed completed
       emitted layer_after outcome
       deref assign with_proto with_frame_buf with_flow with_handler
       with_websocket with_error with_messages
       proto conn frame_buf context flow client_ws server_ws _handle_event
       http.websocket http.error websocket.messages websocket.closed_by_client
       websocket.close_code websocket.close_reason
       websocket.WebSocketMessage__init__ fst snd];
  cbn [app].

Section Runs.
Import wsproto websocket http events commands.

Context {P : Type} {lib : wsproto.Library P} {addons : Addons}.

Implicit Types (self : @WebsocketLayer P) (ws : Ref) (from_client : bool).


Lemma yield_send2_run ws (ws_event : Event) self :
  yield_send2 ws ws_event self
  = ([SendData (conn (deref ws self)) (fst (send (proto (deref ws self)) ws_event))],
     assign ws (with_proto (snd (send (proto (deref ws self)) ws_event)) (deref ws self))
       self,
     Returned tt).
Proof.
  unfold yield_send2, send2, bind, get_self, update, yield, ret.
  destruct (send (proto (deref ws self)) ws_event) as [data p]. reflexivity.
Qed.

(** Sending never raises, and changes nothing but the state that the
    library keeps for the connection it sends on. *)
Lemma for_each_send2_run ws (evs : list Event) :
  forall self,
  exists cmds p,
    for_each evs (yield_send2 ws) self
    = (cmds, assign ws (with_proto p (deref ws self)) self, Returned tt) /\
    map is_send cmds = repeat true (List.length evs).
Proof.
  induction evs as [| e evs IH]; intros self.
  - exists [], (proto (deref ws self)). split; [| reflexivity].
    destruct self as [c f [] [] h], ws; reflexivity.
  - cbn [for_each]. unfold bind at 1. rewrite yield_send2_run.
    destruct (IH (assign ws
                    (with_proto (snd (send (proto (deref ws self)) e)) (deref ws self))
                    self)) as (cmds & p & -> & Hsend).
    eexists (_ :: cmds), p. split.
    + destruct self as [c f [] [] h], ws; reflexivity.
    + simpl. now rewrite Hsend.
Qed.

Lemma on_message_unfinished_run from_client (is_text : bool) (data : bytes) self :
  on_message from_client is_text data false self
  = ([],
     assign (source from_client)
       (with_frame_buf (frame_buf (deref (source from_client) self) ++ [data])
          (deref (source from_client) self)) self,
     Returned tt).
Proof. destruct from_client; reflexivity. Qed.

Lemma init_after_append (buf : list bytes) (data : bytes) (is_text : bool) :
  Fragmentizer.__init__ (buf ++ [data]) is_text
  = inr {| Fragmentizer.fragment_lengths := map len (buf ++ [data]);
           Fragmentizer.is_text := is_text |}.
Proof. destruct buf; reflexivity. Qed.

Lemma on_message_finished_run from_client (is_text : bool) (data : bytes) self :
  let hooked := at_hook self from_client is_text data in
  let message := websocket_message (flow hooked) in
  let fragmentizer :=
    {| Fragmentizer.fragment_lengths :=
         map len (frame_buf (deref (source from_client) self) ++ [data]);
       Fragmentizer.is_text := is_text |} in
  let sends :=
    for_each (Fragmentizer.__call__ fragmentizer (content message))
      (yield_send2 (destination from_client))
      (resumed self from_client is_text data) in
  on_message from_client is_text data true self
  = if killed message then
      ([WebsocketMessageHook (flow hooked)], resumed self from_client is_text data,
       Returned tt)
    else
      (WebsocketMessageHook (flow hooked) :: emitted sends, layer_after sends,
       outcome sends).
Proof.
  intros hooked message fragmentizer sends.
  subst hooked message fragmentizer sends.
  destruct from_client, self as [c f [pc cc bc] [ps cs bs] h];
    cbv [on_message]; run_layer;
    rewrite init_after_append; run_layer;
    rewrite removelast_last;
    (destruct (killed (websocket_message _));
     [ reflexivity
     | cbn [negb];
       match goal with
       | |- context [for_each ?a ?b ?c] =>
           destruct (for_each a b c) as [[? ?] []]
       end; reflexivity ]).
Qed.

Lemma on_close_run from_client (code : Z) (reason : option str)
    (ws_event : Event) self :
  let f := closed_flow from_client code reason (flow self) in
  on_close from_client code reason ws_event self
  = (close_leg (server_ws self) ws_event ++ close_leg (client_ws self) ws_event
       ++ [if normal_closure code then WebsocketEndHook f else WebsocketErrorHook f],
     {| context := context self;
        flow := f;
        client_ws := closed_leg (client_ws self) ws_event;
        server_ws := closed_leg (server_ws self) ws_event;
        _handle_event := done_handler |},
     Returned tt).
Proof.
  destruct self as [c f [pc cc bc] [ps cs bs] h].
  cbv [on_close for_each close_leg closed_leg closed_flow]. run_layer.
  destruct (state ps) eqn:Es, (state pc) eqn:Ec, (normal_closure code);
    repeat first [ rewrite yield_send2_run | rewrite Es | rewrite Ec
                 | progress run_layer ];
    reflexivity.
Qed.

End Runs.

Section Properties.
Import wsproto websocket http events commands.

Context {P : Type} {lib : wsproto.Library P} {addons : Addons}.

Implicit Types (self : @WebsocketLayer P) (from_client : bool).

Lemma normal_closure_spec (code : Z) :
  normal_closure code = true <-> In code [1000; 1001; 1005].
Proof.
  unfold normal_closure. rewrite !orb_true_iff, !Z.eqb_eq. simpl.
  intuition congruence.
Qed.

Lemma append_empty (s : string) : (s ++ "")%string = s.
Proof. induction s as [| a s IH]; simpl; [reflexivity | now rewrite IH]. Qed.

Lemma format_close_event_spec (code : Z) (reason : option str) :
  format_close_event code reason = close_description code reason.
Proof.
  unfold format_close_event, close_description.
  destruct reason as [[| a r] |]; try reflexivity;
    now rewrite append_empty.
Qed.

Lemma close_leg_hooks (ws : @WebsocketConnection P) (ws_event : Event) :
  filter is_hook (close_leg ws ws_event) = [].
Proof. unfold close_leg. now destruct (state (proto ws)). Qed.

Lemma close_leg_closes (ws : @WebsocketConnection P) (ws_event : Event) :
  filter is_close (close_leg ws ws_event) = [commands.CloseConnection (conn ws)].
Proof. unfold close_leg. now destruct (state (proto ws)). Qed.

Lemma on_ws_event_message from_client (ws_event : Event) (is_text : bool)
    (data : bytes) (finished : bool) :
  message_of ws_event = Some (is_text, data, finished) ->
  on_ws_event from_client ws_event = on_message from_client is_text data finished.
Proof. destruct ws_event; simpl; intros [= <- <- <-]; reflexivity. Qed.

Lemma close_hooks from_client (code : Z) (reason : option str) self :
  let run := on_ws_event from_client (wsproto.CloseConnection code reason) self in
  filter is_hook (emitted run)
  = [(if normal_closure code then WebsocketEndHook else WebsocketErrorHook)
       (flow (layer_after run))] /\
  error (flow (layer_after run))
  = if normal_closure code then error (flow self)
    else Some ("WebSocket Error: " ++ close_description code reason)%string.
Proof.
  cbv zeta. cbn [on_ws_event]. rewrite on_close_run.
  unfold emitted, layer_after. cbn [fst snd flow].
  rewrite !filter_app, !close_leg_hooks. cbn [app].
  unfold closed_flow. cbn [error]. rewrite format_close_event_spec.
  now destruct (normal_closure code).
Qed.

Lemma close_closes_both from_client (code : Z) (reason : option str) self :
  let run := on_ws_event from_client (wsproto.CloseConnection code reason) self in
  In (commands.CloseConnection (conn (client_ws self))) (emitted run) /\
  In (commands.CloseConnection (conn (server_ws self))) (emitted run) /\
  _handle_event (layer_after run) = done_handler /\
  outcome run = Returned tt.
Proof.
  cbv zeta. cbn [on_ws_event]. rewrite on_close_run.
  unfold emitted, layer_after, outcome. cbn [fst snd _handle_event].
  repeat split.
  - apply in_or_app. right. apply in_or_app. left.
    unfold close_leg. apply in_or_app. right. now left.
  - apply in_or_app. left. unfold close_leg. apply in_or_app. right. now left.
Qed.

(** C3.  When a close event is observed, the only hook yielded is the
    session-end hook if the code is 1000, 1001 or 1005; for any other code
    it is the session-error hook, and the error of the flow is then the
    description of the close: the name of the close reason, or the code
    itself tagged as an unknown error, followed by the textual reason if
    there is one. *)
Theorem close_classification from_client (code : Z) (reason : option str) self :
  let run := on_ws_event from_client (wsproto.CloseConnection code reason) self in
  (In code [1000; 1001; 1005] ->
   filter is_hook (emitted run) = [WebsocketEndHook (flow (layer_after run))]) /\
  (~ In code [1000; 1001; 1005] ->
   filter is_hook (emitted run) = [WebsocketErrorHook (flow (layer_after run))] /\
   error (flow (layer_after run))
     = Some ("WebSocket Error: " ++ close_description code reason)%string).
Proof.
  intros run. destruct (close_hooks from_client code reason self) as [Hhook Herror].
  fold run in Hhook, Herror. split; intros Hcode.
  - apply normal_closure_spec in Hcode. now rewrite Hcode in Hhook.
  - destruct (normal_closure code) eqn:Hn.
    + apply normal_closure_spec in Hn. contradiction.
    + split; assumption.
Qed.

(** C5, as amended.  When a close event is observed, the two connections
    are processed in a fixed order, the server-side one first and the
    client-side one second, whichever side the close came from; for each in
    that order, the close event is encoded and sent on it only if its state
    is OPEN or REMOTE_CLOSING, and the close of its transport is yielded in
    every case.  One hook follows. *)
Theorem close_order from_client (code : Z) (reason : option str) self :
  let ws_event := wsproto.CloseConnection code reason in
  let run := on_ws_event from_client ws_event self in
  exists hook,
    is_hook hook = true /\
    emitted run
    = close_leg (server_ws self) ws_event ++ close_leg (client_ws self) ws_event
        ++ [hook].
Proof.
  cbv zeta. cbn [on_ws_event]. rewrite on_close_run. unfold emitted. cbn [fst].
  eexists. split; [| reflexivity]. now destruct (normal_closure code).
Qed.

(** C6.  When the message hook leaves a completed message killed, the hook
    is the only command yielded for the message, so nothing is sent to the
    destination; the message, as the hook left it, is the last of the
    messages of the flow; and the generator returns with the handler
    unchanged, so the session goes on. *)
Theorem suppression from_client (ws_event : Event) (is_text : bool)
    (data : bytes) self :
  message_of ws_event = Some (is_text, data, true) ->
  let hooked := at_hook self from_client is_text data in
  killed (websocket_message (flow hooked)) = true ->
  let run := on_ws_event from_client ws_event self in
  emitted run = [WebsocketMessageHook (flow hooked)] /\
  filter is_send (emitted run) = [] /\
  messages (websocket (flow hooked))
    = messages (websocket (flow self)) ++ [completed self from_client is_text data] /\
  messages (websocket (flow (layer_after run)))
    = messages (websocket (flow self)) ++ [websocket_message (flow hooked)] /\
  deref (destination from_client) (layer_after run)
    = deref (destination from_client) self /\
  _handle_event (layer_after run) = _handle_event self /\
  outcome run = Returned tt.
Proof.
  intros Hmsg hooked Hkilled run. subst run.
  rewrite (on_ws_event_message _ _ _ _ _ Hmsg), on_message_finished_run.
  fold hooked. rewrite Hkilled.
  unfold emitted, layer_after, outcome. cbn [fst snd].
  repeat split; destruct from_client, self as [c f [] [] h]; reflexivity.
Qed.

(** C7.  A close event from either side makes the layer yield the close of
    both transport connections and take [done] as its handler; from then
    on, every event handed to the layer is accepted and dropped: the
    handler yields no command, so nothing is sent, and leaves the layer as
    it is. *)
Theorem shutdown_symmetry self :
  (forall from_client code reason,
     let run := on_ws_event from_client (wsproto.CloseConnection code reason) self in
     In (commands.CloseConnection (conn (client_ws self))) (emitted run) /\
     In (commands.CloseConnection (conn (server_ws self))) (emitted run) /\
     _handle_event (layer_after run) = done_handler) /\
  (_handle_event self = done_handler ->
   forall steps event, handle_event steps event self = ([], self, Returned tt)).
Proof.
  split.
  - intros from_client code reason run.
    destruct (close_closes_both from_client code reason self) as (Hc & Hs & Hh & _).
    repeat split; assumption.
  - intros Hdone steps event. unfold handle_event, bind, get_self.
    rewrite Hdone. reflexivity.
Qed.

(** C8.  For a Ping or a Pong from the source connection the layer yields
    exactly two commands: one log entry that names the kind of frame, the
    side it came from and the payload, and one send, on the destination
    transport, of the bytes the destination connection encodes the very
    same event to.  The flow, and with it its messages, and both frame
    buffers are left as they were. *)
Theorem control_passthrough from_client (ws_event : Event) (data : bytes) self :
  ws_event = Ping data \/ ws_event = Pong data ->
  let dst_ws := deref (destination from_client) self in
  let name := match ws_event with Ping _ => "ping" | _ => "pong" end in
  let run := on_ws_event from_client ws_event self in
  emitted run
  = [Log (control_log name from_client data);
     SendData (conn dst_ws) (fst (send (proto dst_ws) ws_event))] /\
  flow (layer_after run) = flow self /\
  frame_buf (client_ws (layer_after run)) = frame_buf (client_ws self) /\
  frame_buf (server_ws (layer_after run)) = frame_buf (server_ws self) /\
  _handle_event (layer_after run) = _handle_event self /\
  outcome run = Returned tt.
Proof.
  intros [-> | ->]; cbv zeta;
    destruct from_client, self as [c f [pc cc bc] [ps cs bs] h];
    cbv [on_ws_event on_ping_pong control_log]; run_layer;
    rewrite yield_send2_run; run_layer; repeat split; reflexivity.
Qed.

(** C9.  The fragmentizer yields no part for an empty content; so when the
    message hook leaves a completed message with an empty content, the hook
    is the only command yielded and nothing is sent to the destination. *)
Theorem empty_content :
  (forall fragmentizer : Fragmentizer.t, Fragmentizer.__call__ fragmentizer [] = []) /\
  (forall from_client ws_event is_text data self,
     message_of ws_event = Some (is_text, data, true) ->
     let hooked := at_hook self from_client is_text data in
     content (websocket_message (flow hooked)) = [] ->
     let run := on_ws_event from_client ws_event self in
     emitted run = [WebsocketMessageHook (flow hooked)] /\
     filter is_send (emitted run) = [] /\
     outcome run = Returned tt).
Proof.
  split; [reflexivity |].
  intros from_client ws_event is_text data self Hmsg hooked Hempty run. subst run.
  rewrite (on_ws_event_message _ _ _ _ _ Hmsg), on_message_finished_run.
  fold hooked. rewrite Hempty. cbn [Fragmentizer.__call__ for_each].
  destruct (killed (websocket_message (flow hooked))); repeat split.
Qed.

(** C10.  The fragmentizer is built from the frame buffer right after the
    fragment that completes the message was appended to it, so from a list
    that is not empty: the construction succeeds, with the lengths of the
    buffered fragments, and the handling of a message event never ends in
    an exception. *)
Theorem fragmentizer_construction from_client self :
  (forall (data : bytes) (is_text : bool),
     let fragments := frame_buf (deref (source from_client) self) ++ [data] in
     fragments <> [] /\
     Fragmentizer.__init__ fragments is_text
     = inr {| Fragmentizer.fragment_lengths := map len fragments;
              Fragmentizer.is_text := is_text |}) /\
  (forall ws_event is_text data finished,
     message_of ws_event = Some (is_text, data, finished) ->
     outcome (on_ws_event from_client ws_event self) = Returned tt).
Proof.
  split.
  - intros data is_text fragments. split; [| apply init_after_append].
    subst fragments. now destruct (frame_buf _).
  - intros ws_event is_text data finished Hmsg.
    rewrite (on_ws_event_message _ _ _ _ _ Hmsg).
    destruct finished; [| now rewrite on_message_unfinished_run].
    rewrite on_message_finished_run. cbv zeta.
    destruct (killed _); [reflexivity |].
    match goal with
    | |- context [for_each ?evs (yield_send2 ?ws) ?s] =>
        destruct (for_each_send2_run ws evs s) as (cmds & p & -> & _)
    end.
    reflexivity.
Qed.

End Properties.

(** ** The statements at work on the test double *)

Section Instances.
Import wsproto websocket http events commands.

Local Abbreviation run_event := (on_ws_event (lib := double.lib) (addons := double.untouched)).

(** [close_classification] on a normal closure and on an application code. *)
Lemma close_classification_witness :
  (In 1000 [1000; 1001; 1005] /\
   filter is_hook
     (emitted (run_event true (wsproto.CloseConnection 1000 None) (double.relaying [] [])))
   = [WebsocketEndHook
        (flow (layer_after
                 (run_event true (wsproto.CloseConnection 1000 None)
                    (double.relaying [] []))))]) /\
  (~ In 4000 [1000; 1001; 1005] /\
   error
     (flow (layer_after
              (run_event true (wsproto.CloseConnection 4000 (Some "bye"))
                 (double.relaying [] []))))
   = Some "WebSocket Error: UNKNOWN_ERROR=4000 (reason: bye)").
Proof.
  assert (H1 : In 1000 [1000; 1001; 1005]) by (simpl; tauto).
  assert (H2 : ~ In 4000 [1000; 1001; 1005]) by (simpl; lia).
  split; (split; [assumption |]).
  - exact (proj1 (close_classification (lib := double.lib) (addons := double.untouched)
                    true 1000 None (double.relaying [] [])) H1).
  - exact (proj2 (proj2 (close_classification (lib := double.lib)
                           (addons := double.untouched)
                           true 4000 (Some "bye") (double.relaying [] [])) H2)).
Defined.

(** C5 fails as stated: when the close comes from the server, the
    destination of the close is the client-side connection, yet the
    server-side connection, the one of the initiator, is processed
    first. *)
Lemma close_order_server_initiated :
  conn (deref (destination false) double.closing_from_server) = double.the_client /\
  conn (deref (source false) double.closing_from_server) = double.the_server /\
  emitted (run_event false (wsproto.CloseConnection 1000 None) double.closing_from_server)
  = [SendData double.the_server [];
     commands.CloseConnection double.the_server;
     SendData double.the_client [];
     commands.CloseConnection double.the_client;
     WebsocketEndHook
       (flow (layer_after
                (run_event false (wsproto.CloseConnection 1000 None)
                   double.closing_from_server)))] /\
  filter is_close
    (emitted (run_event false (wsproto.CloseConnection 1000 None)
                double.closing_from_server))
  <> [commands.CloseConnection
        (conn (deref (destination false) double.closing_from_server));
      commands.CloseConnection
        (conn (deref (source false) double.closing_from_server))].
Proof. repeat split. discriminate. Qed.

(** [suppression] with addons that kill every message. *)
Lemma suppression_witness :
  message_of (BytesMessage [x61] true true) = Some (false, [x61], true) /\
  killed
    (websocket_message (Addons := double.kill)
       (flow (at_hook (double.relaying [] []) true false [x61])))
  = true /\
  filter is_send
    (emitted
       (on_ws_event (lib := double.lib) (addons := double.kill) true
          (BytesMessage [x61] true true) (double.relaying [] [])))
  = [] /\
  messages
    (websocket
       (flow
          (layer_after
             (on_ws_event (lib := double.lib) (addons := double.kill) true
                (BytesMessage [x61] true true) (double.relaying [] [])))))
  = [Build_WebSocketMessage BINARY true [x61] true] /\
  _handle_event
    (layer_after
       (on_ws_event (lib := double.lib) (addons := double.kill) true
          (BytesMessage [x61] true true) (double.relaying [] [])))
  = relay_messages_handler.
Proof.
  assert (H1 : message_of (BytesMessage [x61] true true) = Some (false, [x61], true))
    by reflexivity.
  assert (H2 : killed
                 (websocket_message (Addons := double.kill)
                    (flow (at_hook (double.relaying [] []) true false [x61])))
               = true) by reflexivity.
  destruct (suppression (lib := double.lib) (addons := double.kill)
              true (BytesMessage [x61] true true) false [x61]
              (double.relaying [] []) H1 H2)
    as (_ & Hsend & _ & Hmsgs & _ & Hh & _).
  exact (conj H1 (conj H2 (conj Hsend (conj Hmsgs Hh)))).
Defined.

(** [shutdown_symmetry] after a normal closure from the client. *)
Lemma shutdown_symmetry_witness :
  _handle_event
    (layer_after (run_event true (wsproto.CloseConnection 1000 None)
                    (double.relaying [] [])))
  = done_handler /\
  handle_event (lib := double.lib) (addons := double.untouched) 3
    (DataReceived double.the_server [x81; x01; x61])
    (layer_after (run_event true (wsproto.CloseConnection 1000 None)
                    (double.relaying [] [])))
  = ([],
     layer_after (run_event true (wsproto.CloseConnection 1000 None)
                    (double.relaying [] [])),
     Returned tt).
Proof.
  assert (H : _handle_event
                (layer_after (run_event true (wsproto.CloseConnection 1000 None)
                                (double.relaying [] [])))
              = done_handler) by reflexivity.
  split; [exact H |].
  exact (proj2 (shutdown_symmetry (lib := double.lib) (addons := double.untouched)
                  (layer_after (run_event true (wsproto.CloseConnection 1000 None)
                                  (double.relaying [] []))))
           H 3%nat (DataReceived double.the_server [x81; x01; x61])).
Defined.

(** [control_passthrough] on a ping from the client. *)
Lemma control_passthrough_witness :
  (Ping [x68; x69] = Ping [x68; x69] \/ Ping [x68; x69] = Pong [x68; x69]) /\
  emitted (run_event true (Ping [x68; x69]) (double.relaying [] []))
  = [Log "Received WebSocket ping from client (payload: b'hi')";
     SendData double.the_server [x68; x69]].
Proof.
  assert (H : Ping [x68; x69] = Ping [x68; x69] \/ Ping [x68; x69] = Pong [x68; x69])
    by (left; reflexivity).
  split; [exact H |].
  exact (proj1 (control_passthrough (lib := double.lib) (addons := double.untouched)
                  true (Ping [x68; x69]) [x68; x69] (double.relaying [] []) H)).
Defined.

(** [empty_content] with addons that empty every message. *)
Lemma empty_content_witness :
  message_of (TextMessage "hi" true true) = Some (true, [x68; x69], true) /\
  content
    (websocket_message (Addons := double.rewrite_to [])
       (flow (at_hook (double.relaying [] []) false true [x68; x69])))
  = [] /\
  filter is_send
    (emitted
       (on_ws_event (lib := double.lib) (addons := double.rewrite_to []) false
          (TextMessage "hi" true true) (double.relaying [] [])))
  = [].
Proof.
  assert (H1 : message_of (TextMessage "hi" true true) = Some (true, [x68; x69], true))
    by reflexivity.
  assert (H2 : content
                 (websocket_message (Addons := double.rewrite_to [])
                    (flow (at_hook (double.relaying [] []) false true [x68; x69])))
               = []) by reflexivity.
  split; [exact H1 | split; [exact H2 |]].
  exact (proj1 (proj2 (proj2 (empty_content (lib := double.lib)
                                (addons := double.rewrite_to []))
                         false (TextMessage "hi" true true) true [x68; x69]
                         (double.relaying [] []) H1 H2))).
Defined.

(** [fragmentizer_construction] on a text message in one fragment. *)
Lemma fragmentizer_construction_witness :
  message_of (TextMessage "hi" true true) = Some (true, [x68; x69], true) /\
  outcome (run_event true (TextMessage "hi" true true) (double.relaying [] []))
  = Returned tt.
Proof.
  assert (H : message_of (TextMessage "hi" true true) = Some (true, [x68; x69], true))
    by reflexivity.
  split; [exact H |].
  exact (proj2 (fragmentizer_construction (lib := double.lib)
                  (addons := double.untouched) true (double.relaying [] []))
           (TextMessage "hi" true true) true [x68; x69] true H).
Defined.

(** The first scenario of the specification from end to end: the client
    sends [hello] in three fragments, the addons leave it alone, and the
    server receives three parts. *)
Example relay_of_hello :
  emitted
    (for_events (lib := double.lib) 4 the_client_ws
       (on_ws_event (lib := double.lib) (addons := double.untouched) true)
       (double.relaying
          [TextMessage "he" true false; TextMessage "ll" true false;
           TextMessage "o" true true] []))
  = [WebsocketMessageHook
       {| websocket :=
            {| messages := [Build_WebSocketMessage TEXT true (encode "hello") false];
               closed_by_client := None; close_code := None; close_reason := None |};
          error := None |};
     SendData double.the_server (encode "he");
     SendData double.the_server (encode "ll");
     SendData double.the_server (encode "o")].
Proof. reflexivity. Qed.

End Instances.

(** * Further properties *)

(** ** Fragmentizer *)

Lemma marked_final_msg (self : Fragmentizer.t) (d : bytes) (final : bool) :
  marked_final (Fragmentizer.msg self d final) = final.
Proof. unfold Fragmentizer.msg. now destruct (Fragmentizer.is_text self). Qed.

Lemma reuse_sizes_final (self : Fragmentizer.t) (content : bytes) (fls : list Z) :
  forall offset,
  map marked_final (Fragmentizer.reuse_sizes self content offset fls)
  = repeat false (List.length fls) ++ [true].
Proof.
  induction fls as [| fl fls IH]; intros offset; cbn [Fragmentizer.reuse_sizes map].
  - now rewrite marked_final_msg.
  - now rewrite marked_final_msg, IH.
Qed.

Lemma rechunk_final (self : Fragmentizer.t) (content : bytes) (total : Z) (n : nat) :
  forall offset,
  (Z.to_nat (total - offset) <= n)%nat ->
  exists k,
    map marked_final (Fragmentizer.rechunk self content total offset)
    = repeat false k ++ [true].
Proof.
  assert (HF : Fragmentizer.FRAGMENT_SIZE = 4000) by reflexivity.
  induction n as [| n IH]; intros offset Hn;
    rewrite Fragmentizer.rechunk_equation_1;
    destruct (Z_lt_dec offset total) as [Hlt | Hge];
    cbn [Fragmentizer.rechunk_unfold_clause_1 map]; rewrite marked_final_msg.
  - lia.
  - now exists 0%nat.
  - destruct (IH (offset + Fragmentizer.FRAGMENT_SIZE)) as [k Hk]; [lia |].
    exists (S k). now rewrite Hk.
  - now exists 0%nat.
Qed.

(** X1.  Whatever the recorded lengths, a non-empty content is cut into at least
    one part, and the parts end with the only one that is marked final: the
    message that goes out is always terminated, and only once. *)
Theorem one_final_part_at_the_end (self : Fragmentizer.t) (content : bytes) :
  content <> [] ->
  exists k,
    map marked_final (Fragmentizer.__call__ self content) = repeat false k ++ [true].
Proof.
  intros Hne. unfold Fragmentizer.__call__.
  destruct content as [| b content]; [congruence |].
  destruct (len (b :: content) =? sum (Fragmentizer.fragment_lengths self)).
  - eexists. apply reuse_sizes_final.
  - eapply rechunk_final. reflexivity.
Qed.

Lemma one_final_part_at_the_end_witness :
  [x61; x62; x63] <> [] /\
  exists k,
    map marked_final
      (Fragmentizer.__call__
         {| Fragmentizer.fragment_lengths := [7; -4]; Fragmentizer.is_text := false |}
         [x61; x62; x63])
    = repeat false k ++ [true].
Proof.
  assert (H : [x61; x62; x63] <> []) by discriminate.
  exact (conj H (one_final_part_at_the_end _ _ H)).
Defined.

Lemma utf8_replace_ascii (content : bytes) :
  ascii_only content -> utf8_replace content = content.
Proof.
  unfold utf8_replace. induction 1 as [| b content Hb _ IH]; [reflexivity |].
  cbn [utf8_dec]. unfold utf8_lead.
  apply N.ltb_lt in Hb. rewrite Hb. now rewrite IH.
Qed.

Lemma ascii_only_app (s t : bytes) :
  ascii_only (s ++ t) <-> ascii_only s /\ ascii_only t.
Proof. apply Forall_app. Qed.

Lemma ascii_only_concat (chunks : list bytes) :
  ascii_only (List.concat chunks) -> Forall ascii_only chunks.
Proof.
  induction chunks as [| d chunks IH]; cbn [List.concat]; intros H; constructor.
  - now apply ascii_only_app in H.
  - apply IH. now apply ascii_only_app in H.
Qed.

Lemma parts_payload (self : Fragmentizer.t) (chunks : list bytes) (tail : bytes) :
  Fragmentizer.is_text self = false \/ ascii_only (List.concat chunks ++ tail) ->
  map payload (parts self chunks tail) = chunks ++ [tail].
Proof.
  intros [Hbin | Hascii]; [now apply parts_payload_binary |].
  apply ascii_only_app in Hascii as [Hchunks Htail].
  apply ascii_only_concat in Hchunks.
  unfold parts. rewrite map_app, map_map. f_equal.
  - rewrite <- (map_id chunks) at 2. apply map_ext_in. intros d Hd.
    rewrite payload_msg. destruct (Fragmentizer.is_text self); [| reflexivity].
    apply utf8_replace_ascii. now apply (proj1 (Forall_forall _ _) Hchunks).
  - cbn [map]. rewrite payload_msg.
    destruct (Fragmentizer.is_text self); [| reflexivity].
    now rewrite utf8_replace_ascii.
Qed.

Lemma concat_snoc {A} (chunks : list (list A)) (tail : list A) :
  List.concat (chunks ++ [tail]) = List.concat chunks ++ tail.
Proof. rewrite concat_app. cbn [List.concat]. now rewrite app_nil_r. Qed.

Lemma lens_nonneg {A} (fragments : list (list A)) :
  Forall (fun fl => 0 <= fl) (map len fragments).
Proof.
  apply Forall_forall. intros x Hx.
  apply in_map_iff in Hx as (d & <- & _). apply len_nonneg.
Qed.

Lemma call_different_length (self : Fragmentizer.t) (content : bytes) :
  content <> [] ->
  len content <> sum (Fragmentizer.fragment_lengths self) ->
  exists chunks tail,
    List.concat chunks ++ tail = content /\
    Forall (fun d => len d = Fragmentizer.FRAGMENT_SIZE) chunks /\
    len tail = tail_length (len content) /\
    Fragmentizer.__call__ self content = parts self chunks tail.
Proof.
  intros Hne Hlen.
  assert (Hpos : 0 < len content).
  { destruct content; [congruence |]. unfold len. simpl. lia. }
  destruct (rechunk_parts self content (Z.to_nat (len content)) 0)
    as (chunks & tail & Hcat & Hall & Htail & Hrun); [lia | lia |].
  rewrite Z.sub_0_r in Htail. exists chunks, tail. repeat split; try assumption.
  unfold Fragmentizer.__call__. destruct content as [| b content]; [congruence |].
  destruct (Z.eqb_spec (len (b :: content)) (sum (Fragmentizer.fragment_lengths self)));
    [contradiction | exact Hrun].
Qed.

Lemma call_cuts (fragments : list bytes) (is_text : bool) (self : Fragmentizer.t)
    (content : bytes) :
  Fragmentizer.__init__ fragments is_text = inr self ->
  content <> [] ->
  exists chunks tail,
    List.concat chunks ++ tail = content /\
    Fragmentizer.__call__ self content = parts self chunks tail.
Proof.
  intros Hinit Hne. apply init_inr in Hinit as [_ ->].
  destruct (Z.eq_dec (len content) (sum (map len fragments))) as [Heq | Hneq].
  - destruct (call_same_length
                {| Fragmentizer.fragment_lengths := map len fragments;
                   Fragmentizer.is_text := is_text |} content)
      as (chunks & tail & Hcat & _ & Hcall);
      [apply lens_nonneg | exact Hne | exact Heq |].
    now exists chunks, tail.
  - destruct (call_different_length
                {| Fragmentizer.fragment_lengths := map len fragments;
                   Fragmentizer.is_text := is_text |} content Hne Hneq)
      as (chunks & tail & Hcat & _ & _ & Hcall).
    now exists chunks, tail.
Qed.

(** X2.  The parts of a binary message, and those of a text message of ASCII
    characters, carry the content and nothing else: put end to end, their
    payloads are the content, whether the content was edited or not and
    whatever its length. *)
Theorem parts_carry_the_content (fragments : list bytes) (is_text : bool)
    (self : Fragmentizer.t) (content : bytes) :
  Fragmentizer.__init__ fragments is_text = inr self ->
  is_text = false \/ ascii_only content ->
  List.concat (map payload (Fragmentizer.__call__ self content)) = content.
Proof.
  intros Hinit Hkind. destruct content as [| b content]; [reflexivity |].
  destruct (call_cuts fragments is_text self (b :: content) Hinit)
    as (chunks & tail & Hcat & ->); [discriminate |].
  rewrite parts_payload; [unfold bytes; rewrite concat_snoc; exact Hcat |].
  apply init_inr in Hinit as [_ ->]. cbn [Fragmentizer.is_text].
  rewrite Hcat. exact Hkind.
Qed.

Lemma parts_carry_the_content_witness :
  Fragmentizer.__init__ [[x68; x65]; [x79]] true
    = inr {| Fragmentizer.fragment_lengths := [2; 1]; Fragmentizer.is_text := true |} /\
  (true = false \/ ascii_only [x68; x65; x6c; x6c; x6f]) /\
  List.concat
    (map payload
       (Fragmentizer.__call__
          {| Fragmentizer.fragment_lengths := [2; 1]; Fragmentizer.is_text := true |}
          [x68; x65; x6c; x6c; x6f]))
  = [x68; x65; x6c; x6c; x6f].
Proof.
  assert (H1 : Fragmentizer.__init__ [[x68; x65]; [x79]] true
               = inr {| Fragmentizer.fragment_lengths := [2; 1];
                        Fragmentizer.is_text := true |}) by reflexivity.
  assert (H2 : true = false \/ ascii_only [x68; x65; x6c; x6c; x6f]).
  { right. repeat constructor. }
  exact (conj H1 (conj H2 (parts_carry_the_content _ _ _ _ H1 H2))).
Defined.

Lemma len_concat_fixed {A} (chunks : list (list A)) (n : Z) :
  Forall (fun d => len d = n) chunks ->
  len (List.concat chunks) = n * Z.of_nat (List.length chunks).
Proof.
  induction 1 as [| d chunks Hd _ IH]; cbn [List.concat List.length].
  - unfold len. simpl. lia.
  - rewrite len_app, Hd, IH. lia.
Qed.

Lemma tail_length_bounds (n : Z) :
  0 < tail_length n <= Fragmentizer.FRAGMENT_SIZE /\
  (n - tail_length n) mod Fragmentizer.FRAGMENT_SIZE = 0.
Proof.
  unfold tail_length, Fragmentizer.FRAGMENT_SIZE.
  pose proof (Z.mod_pos_bound n 4000 ltac:(lia)) as Hb.
  destruct (Z.eqb_spec (n mod 4000) 0) as [H0 | Hn0].
  - split; [lia |].
    replace (n - 4000) with (n + (-1) * 4000) by lia.
    now rewrite Z.mod_add by lia.
  - split; [lia |]. rewrite Zminus_mod, Z.mod_mod, Z.sub_diag by lia. reflexivity.
Qed.

(** X3.  An edited message never goes out in oversized frames: when the length of
    a non-empty content differs from the sum of the recorded lengths, the
    number of parts is the length divided by 4000 and rounded up, and for a
    binary message, or a text message of ASCII characters, no part is empty
    and none carries more than 4000 bytes. *)
Theorem rechunk_count (self : Fragmentizer.t) (content : bytes) :
  content <> [] ->
  len content <> sum (Fragmentizer.fragment_lengths self) ->
  len (Fragmentizer.__call__ self content) = (len content + 3999) / 4000 /\
  (Fragmentizer.is_text self = false \/ ascii_only content ->
   Forall (fun part => 0 < len (payload part) <= 4000)
     (Fragmentizer.__call__ self content)).
Proof.
  intros Hne Hlen.
  destruct (call_different_length self content Hne Hlen)
    as (chunks & tail & Hcat & Hall & Htail & ->).
  pose proof (tail_length_bounds (len content)) as [Hbound Hmod].
  assert (HF : Fragmentizer.FRAGMENT_SIZE = 4000) by reflexivity.
  assert (Hn : len content = 4000 * Z.of_nat (List.length chunks) + len tail).
  { rewrite <- Hcat at 1. rewrite len_app, (len_concat_fixed chunks 4000); [lia |].
    now rewrite <- HF. }
  split.
  - unfold parts, len at 1. rewrite length_app, length_map. cbn [List.length].
    replace (len content + 3999)
      with (len tail + 3999 + Z.of_nat (List.length chunks) * 4000) by lia.
    rewrite Z.div_add by lia.
    assert (Hq : (len tail + 3999) / 4000 = 1).
    { symmetry. apply (Z.div_unique _ 4000 1 (len tail - 1)); lia. }
    rewrite Hq. unfold bytes in *. lia.
  - intros Hkind. rewrite <- (Forall_map payload (fun d => 0 < len d <= 4000)).
    rewrite parts_payload by now rewrite Hcat.
    apply Forall_app. split.
    + eapply Forall_impl; [| exact Hall]. intros d Hd. cbv beta in Hd. lia.
    + repeat constructor; lia.
Qed.

Lemma rechunk_count_witness :
  repeat x62 (Z.to_nat 8500) <> [] /\
  len (repeat x62 (Z.to_nat 8500)) <> sum [1000] /\
  len (Fragmentizer.__call__
         {| Fragmentizer.fragment_lengths := [1000]; Fragmentizer.is_text := false |}
         (repeat x62 (Z.to_nat 8500)))
  = 3.
Proof.
  assert (H1 : repeat x62 (Z.to_nat 8500) <> []) by (vm_compute; discriminate).
  assert (H2 : len (repeat x62 (Z.to_nat 8500)) <> sum [1000])
    by (vm_compute; discriminate).
  exact (conj H1 (conj H2
           (proj1 (rechunk_count
                     {| Fragmentizer.fragment_lengths := [1000];
                        Fragmentizer.is_text := false |}
                     (repeat x62 (Z.to_nat 8500)) H1 H2)))).
Defined.

Lemma app_same_length {A} (x y a b : list A) :
  List.length x = List.length y -> x ++ a = y ++ b -> x = y /\ a = b.
Proof.
  revert y. induction x as [| h x IH]; intros [| k y] Hlen Heq;
    try discriminate; [now split |].
  cbn [app] in Heq. injection Heq as -> Heq. injection Hlen as Hlen.
  destruct (IH y Hlen Heq) as [-> ->]. now split.
Qed.

Lemma same_cuts {A} (xs ys : list (list A)) :
  List.concat xs = List.concat ys ->
  map len xs = map len ys ->
  xs = ys.
Proof.
  revert ys. induction xs as [| x xs IH]; intros [| y ys] Hcat Hlen;
    try discriminate; [reflexivity |].
  cbn [List.concat map] in *. injection Hlen as Hxy Hrest.
  apply app_same_length in Hcat as [-> Htl]; [| unfold len in Hxy; lia].
  f_equal. now apply IH.
Qed.

Lemma call_own_content (fragments : list bytes) (is_text : bool) :
  List.concat fragments <> [] ->
  Fragmentizer.__call__
    {| Fragmentizer.fragment_lengths := map len fragments;
       Fragmentizer.is_text := is_text |} (List.concat fragments)
  = parts {| Fragmentizer.fragment_lengths := map len fragments;
             Fragmentizer.is_text := is_text |}
      (removelast fragments) (last fragments []).
Proof.
  intros Hne.
  assert (Hsum : forall fs : list bytes, len (List.concat fs) = sum (map len fs)).
  { induction fs as [| f fs IH]; [reflexivity |].
    cbn [List.concat map sum fold_right]. rewrite len_app. fold (sum (map len fs)).
    now rewrite IH. }
  destruct (call_same_length
              {| Fragmentizer.fragment_lengths := map len fragments;
                 Fragmentizer.is_text := is_text |} (List.concat fragments))
    as (chunks & tail & Hcat & Hmap & Hcall);
    [apply lens_nonneg | exact Hne | apply Hsum |].
  cbn [Fragmentizer.fragment_lengths] in Hmap.
  assert (Hsame : chunks ++ [tail] = fragments).
  { apply same_cuts; [| exact Hmap]. unfold bytes in *. now rewrite concat_snoc. }
  rewrite Hcall, <- Hsame, removelast_last, last_last. reflexivity.
Qed.

(** X4.  The original chunking is retained: a fragmentizer called on the content
    it was built from, when that content is not empty, yields one part per
    original fragment, built from that very fragment, in order and all
    marked non-final but the last.  For a binary message the parts are the
    fragments themselves. *)
Theorem unmodified_replay (fragments : list bytes) (is_text : bool)
    (self : Fragmentizer.t) :
  Fragmentizer.__init__ fragments is_text = inr self ->
  List.concat fragments <> [] ->
  Fragmentizer.__call__ self (List.concat fragments)
  = parts self (removelast fragments) (last fragments []) /\
  (is_text = false ->
   Fragmentizer.__call__ self (List.concat fragments)
   = map (fun d => wsproto.BytesMessage d true false) (removelast fragments)
       ++ [wsproto.BytesMessage (last fragments []) true true]).
Proof.
  intros Hinit Hne. pose proof (init_inr _ _ _ Hinit) as [Hfr ->].
  pose proof (call_own_content fragments is_text Hne) as Hparts.
  split; [exact Hparts |]. intros ->. rewrite Hparts. reflexivity.
Qed.

Lemma unmodified_replay_witness :
  Fragmentizer.__init__ [[x68; x65]; []; [x79]] false
    = inr {| Fragmentizer.fragment_lengths := [2; 0; 1]; Fragmentizer.is_text := false |} /\
  List.concat [[x68; x65]; []; [x79]] <> [] /\
  Fragmentizer.__call__
    {| Fragmentizer.fragment_lengths := [2; 0; 1]; Fragmentizer.is_text := false |}
    (List.concat [[x68; x65]; []; [x79]])
  = [wsproto.BytesMessage [x68; x65] true false; wsproto.BytesMessage [] true false;
     wsproto.BytesMessage [x79] true true].
Proof.
  assert (H1 : Fragmentizer.__init__ [[x68; x65]; []; [x79]] false
               = inr {| Fragmentizer.fragment_lengths := [2; 0; 1];
                        Fragmentizer.is_text := false |}) by reflexivity.
  assert (H2 : List.concat [[x68; x65]; []; [x79]] <> []) by discriminate.
  exact (conj H1 (conj H2
           (proj2 (unmodified_replay _ _ _ H1 H2) eq_refl))).
Defined.

(** ** The loop of [relay_messages] *)

Section Loop.
Import wsproto websocket http events commands.

Context {P : Type} {lib : wsproto.Library P} {addons : Addons}.

Implicit Types (self s : @WebsocketLayer P) (ws : Ref) (from_client : bool).

Lemma for_each_send2_exact ws (evs : list Event) :
  forall self,
  for_each evs (yield_send2 ws) self
  = (map (SendData (conn (deref ws self))) (fst (send_all (proto (deref ws self)) evs)),
     assign ws (with_proto (snd (send_all (proto (deref ws self)) evs)) (deref ws self))
       self,
     Returned tt).
Proof.
  induction evs as [| e evs IH]; intros self.
  - destruct self as [c f [] [] h], ws; reflexivity.
  - cbn [for_each send_all]. unfold bind at 1. rewrite yield_send2_run, IH.
    destruct self as [c f [pc cc bc] [ps cs bs] h], ws;
      cbn [deref assign with_proto proto conn client_ws server_ws];
      destruct (send _ e) as [d p1]; cbn [fst snd];
      destruct (send_all p1 evs) as [ds p2]; reflexivity.
Qed.

(** One turn of the loop. *)
Lemma for_events_step (steps : nat) ws (body : Event -> CommandGenerator unit) self :
  for_events (S steps) ws body self
  = match next_event (proto (deref ws self)) with
    | None => ([], self, Returned tt)
    | Some (ws_event, p) =>
        let r1 := body ws_event (assign ws (with_proto p (deref ws self)) self) in
        match outcome r1 with
        | Returned _ =>
            let r2 := for_events steps ws body (layer_after r1) in
            (emitted r1 ++ emitted r2, layer_after r2, outcome r2)
        | Raised e => (emitted r1, layer_after r1, Raised e)
        | Unfinished => (emitted r1, layer_after r1, Unfinished)
        end
    end.
Proof.
  cbn [for_events]. unfold bind at 1. cbn [get_self].
  destruct (next_event (proto (deref ws self))) as [[ws_event p] |]; [| reflexivity].
  unfold bind, update, emitted, layer_after, outcome.
  destruct (body ws_event _) as [[c1 s1] [[] | e |]]; cbn [fst snd app];
    [| reflexivity | reflexivity].
  destruct (for_events steps ws body s1) as [[c2 s2] o2]. reflexivity.
Qed.

Lemma relay_messages_run (steps : nat) (event : ConnectionEvent) self :
  let from_client := connection.eqb (connection_of event) (client (context self)) in
  let data :=
    match event with DataReceived _ data => Some data | ConnectionClosed _ => None end in
  relay_messages steps event self
  = for_events steps (source from_client) (on_ws_event from_client)
      (assign (source from_client)
         (with_proto (receive_data (proto (deref (source from_client) self)) data)
            (deref (source from_client) self)) self).
Proof.
  cbv zeta. unfold relay_messages, bind, get_self, update, source.
  destruct (for_events _ _ _ _) as [[c s] o]. reflexivity.
Qed.

Lemma on_message_finished_exact from_client (is_text : bool) (data : bytes) self :
  let hooked := at_hook self from_client is_text data in
  let message := websocket_message (flow hooked) in
  let fragmentizer :=
    {| Fragmentizer.fragment_lengths :=
         map len (frame_buf (deref (source from_client) self) ++ [data]);
       Fragmentizer.is_text := is_text |} in
  let forwarded :=
    if killed message then []
    else Fragmentizer.__call__ fragmentizer (content message) in
  let dst_ws := deref (destination from_client) self in
  on_message from_client is_text data true self
  = (WebsocketMessageHook (flow hooked)
       :: map (SendData (conn dst_ws)) (fst (send_all (proto dst_ws) forwarded)),
     assign (destination from_client)
       (with_proto (snd (send_all (proto dst_ws) forwarded)) dst_ws)
       (resumed self from_client is_text data),
     Returned tt).
Proof.
  cbv zeta. rewrite on_message_finished_run. cbv zeta.
  destruct (killed _).
  - destruct from_client, self as [c f [pc cc bc] [ps cs bs] h]; reflexivity.
  - rewrite for_each_send2_exact.
    destruct from_client, self as [c f [pc cc bc] [ps cs bs] h]; reflexivity.
Qed.

Lemma on_ping_pong_run from_client (name : string) (data : bytes) (ws_event : Event)
    self :
  let dst_ws := deref (destination from_client) self in
  on_ping_pong from_client name data ws_event self
  = ([Log (control_log name from_client data);
      SendData (conn dst_ws) (fst (send (proto dst_ws) ws_event))],
     assign (destination from_client)
       (with_proto (snd (send (proto dst_ws) ws_event)) dst_ws) self,
     Returned tt).
Proof.
  cbv zeta. unfold on_ping_pong, bind at 1. cbn [yield]. rewrite yield_send2_run.
  destruct from_client; reflexivity.
Qed.

(** Rewrites the run of the body of the loop, for each kind of event, into
    the commands, the layer and the outcome it gives. *)
Ltac event_cases ws_event :=
  destruct ws_event as [data ff [|] | data ff [|] | data | data | code reason | printed];
  cbn [on_ws_event];
  [ rewrite on_message_finished_exact | rewrite on_message_unfinished_run
  | rewrite on_message_finished_exact | rewrite on_message_unfinished_run
  | rewrite on_ping_pong_run | rewrite on_ping_pong_run
  | rewrite on_close_run | unfold raise ];
  cbv zeta; unfold emitted, layer_after, outcome; cbn [fst snd].

Lemma sends_no_message_hook (k : connection.Connection) (ds : list bytes) :
  filter is_message_hook (map (SendData k) ds) = [].
Proof. induction ds; [reflexivity | exact IHds]. Qed.

Lemma sends_no_final_hook (k : connection.Connection) (ds : list bytes) :
  existsb is_final_hook (map (SendData k) ds) = false.
Proof. induction ds; [reflexivity | exact IHds]. Qed.

Lemma close_leg_no_message_hook (ws : @WebsocketConnection P) (ws_event : Event) :
  filter is_message_hook (close_leg ws ws_event) = [].
Proof. unfold close_leg. now destruct (state (proto ws)). Qed.

(** *** What the body of the loop keeps *)

Lemma on_ws_event_wiring from_client (ws_event : Event) self :
  let r := on_ws_event from_client ws_event self in
  context (layer_after r) = context self /\
  conn (client_ws (layer_after r)) = conn (client_ws self) /\
  conn (server_ws (layer_after r)) = conn (server_ws self).
Proof.
  cbv zeta. event_cases ws_event;
    destruct from_client, self as [c f [pc cc bc] [ps cs bs] h];
    cbn; unfold closed_leg; cbn;
    repeat match goal with |- context [state ?p] => destruct (state p) end;
    repeat split.
Qed.

Lemma on_ws_event_messages from_client (ws_event : Event) self :
  let r := on_ws_event from_client ws_event self in
  exists extra,
    messages (websocket (flow (layer_after r)))
    = messages (websocket (flow self)) ++ extra /\
    List.length extra = List.length (filter is_message_hook (emitted r)).
Proof.
  cbv zeta. event_cases ws_event.
  1, 3: eexists [_]; cbn [filter is_message_hook];
    rewrite sends_no_message_hook; split; [| reflexivity];
    destruct from_client, self as [c f [pc cc bc] [ps cs bs] h]; reflexivity.
  1, 2, 6: exists []; rewrite app_nil_r; split; [| reflexivity];
    destruct from_client, self as [c f [pc cc bc] [ps cs bs] h]; reflexivity.
  1, 2: exists []; rewrite app_nil_r; split; [| reflexivity];
    destruct from_client, self as [c f [pc cc bc] [ps cs bs] h]; reflexivity.
  exists []. rewrite app_nil_r. split; [reflexivity |].
  rewrite !filter_app, !close_leg_no_message_hook.
  now destruct (normal_closure code).
Qed.

Lemma on_ws_event_handler from_client (ws_event : Event) self :
  let r := on_ws_event from_client ws_event self in
  _handle_event (layer_after r) = done_handler
  <-> _handle_event self = done_handler \/ existsb is_final_hook (emitted r) = true.
Proof.
  cbv zeta. event_cases ws_event.
  1, 3: cbn [existsb is_final_hook orb]; rewrite sends_no_final_hook;
    destruct from_client, self as [c f [pc cc bc] [ps cs bs] h]; cbn;
    intuition discriminate.
  1, 2, 3, 4, 6:
    destruct from_client, self as [c f [pc cc bc] [ps cs bs] h]; cbn;
    intuition discriminate.
  cbn [_handle_event]. split; [intros _; right | reflexivity].
  rewrite !existsb_app. cbn [existsb].
  destruct (normal_closure code); cbn [is_final_hook]; now rewrite !orb_true_r.
Qed.

Lemma on_ws_event_addressed from_client (ws_event : Event) self :
  Forall (addressed self) (emitted (on_ws_event from_client ws_event self)).
Proof.
  assert (Hsends : forall k ds,
            k = conn (client_ws self) \/ k = conn (server_ws self) ->
            Forall (addressed self) (map (SendData k) ds)).
  { intros k ds Hk. induction ds; constructor; assumption. }
  assert (Hleg : forall leg : @WebsocketConnection P,
            conn leg = conn (client_ws self) \/ conn leg = conn (server_ws self) ->
            forall e, Forall (addressed self) (close_leg leg e)).
  { intros leg Hws e. unfold close_leg. apply Forall_app. split.
    - destruct (state (proto leg));
        try (constructor; [exact Hws | constructor]); constructor.
    - constructor; [exact Hws | constructor]. }
  event_cases ws_event.
  1, 3: constructor; [exact I |]; apply Hsends; destruct from_client; cbn; tauto.
  1, 2, 6: constructor.
  1, 2: constructor; [exact I |]; constructor; [| constructor];
    destruct from_client; cbn; tauto.
  apply Forall_app; split; [apply Hleg; tauto |].
  apply Forall_app; split; [apply Hleg; tauto |].
  destruct (normal_closure code); (constructor; [exact I | constructor]).
Qed.

Section Kept.
(** A relation between a layer, the commands of a run and the layer
    after the run that holds of the empty run, of runs put end to end, of
    every change of the state that the library keeps, and of every turn
    of a loop, holds of the loop. *)
Variable R : @WebsocketLayer P -> list Command -> @WebsocketLayer P -> Prop.
Hypothesis R_refl : forall s, R s [] s.
Hypothesis R_trans :
  forall s c1 s1 c2 s2, R s c1 s1 -> R s1 c2 s2 -> R s (c1 ++ c2) s2.
Hypothesis R_library :
  forall s ws p, R s [] (assign ws (with_proto p (deref ws s)) s).

Lemma for_events_keeps (body : Event -> CommandGenerator unit) :
  (forall e s, R s (emitted (body e s)) (layer_after (body e s))) ->
  forall steps ws s,
  R s (emitted (for_events steps ws body s)) (layer_after (for_events steps ws body s)).
Proof.
  intros Hbody. induction steps as [| steps IH]; intros ws s.
  - apply R_refl.
  - rewrite for_events_step.
    destruct (next_event (proto (deref ws s))) as [[e p] |]; [| apply R_refl].
    cbv zeta.
    pose proof (Hbody e (assign ws (with_proto p (deref ws s)) s)) as H1.
    pose proof (R_trans _ _ _ _ _ (R_library s ws p) H1) as H2. cbn [app] in H2.
    destruct (outcome (body e _)); unfold emitted at 1, layer_after at 1;
      cbn [fst snd]; [| exact H2 | exact H2].
    eapply R_trans; [exact H2 | apply IH].
Qed.

Lemma relay_messages_keeps :
  (forall from_client e s,
     R s (emitted (on_ws_event from_client e s))
       (layer_after (on_ws_event from_client e s))) ->
  forall steps event s,
  R s (emitted (relay_messages steps event s))
    (layer_after (relay_messages steps event s)).
Proof.
  intros Hbody steps event s. rewrite relay_messages_run. cbv zeta.
  set (from_client := connection.eqb (connection_of event) (client (context s))).
  set (p := receive_data _ _).
  pose proof (for_events_keeps _ (Hbody from_client) steps (source from_client)
                (assign (source from_client)
                   (with_proto p (deref (source from_client) s)) s)) as H.
  exact (R_trans _ _ _ _ _ (R_library s _ _) H).
Qed.
End Kept.

Lemma on_ws_event_destination_buffer from_client (ws_event : Event) self :
  frame_buf (deref (destination from_client)
               (layer_after (on_ws_event from_client ws_event self)))
  = frame_buf (deref (destination from_client) self).
Proof.
  event_cases ws_event;
    destruct from_client, self as [c f [pc cc bc] [ps cs bs] h];
    cbn; unfold closed_leg; cbn;
    repeat match goal with |- context [state ?p] => destruct (state p) end;
    reflexivity.
Qed.

(** X5.  Whatever the library yields, handling an event never rewires the
    layer: the context and the transport connection of each side are those
    it started with, and the frame buffer of the side an event did not
    come from is left alone. *)
Theorem relay_keeps_wiring (steps : nat) (event : ConnectionEvent) self :
  let from_client := connection.eqb (connection_of event) (client (context self)) in
  let r := relay_messages steps event self in
  context (layer_after r) = context self /\
  conn (client_ws (layer_after r)) = conn (client_ws self) /\
  conn (server_ws (layer_after r)) = conn (server_ws self) /\
  frame_buf (deref (destination from_client) (layer_after r))
  = frame_buf (deref (destination from_client) self).
Proof.
  intros from_client r. subst r. rewrite relay_messages_run. cbv zeta.
  fold from_client. set (p := receive_data _ _).
  set (R := fun s (_ : list Command) s' =>
              context s' = context s /\
              conn (client_ws s') = conn (client_ws s) /\
              conn (server_ws s') = conn (server_ws s) /\
              frame_buf (deref (destination from_client) s')
              = frame_buf (deref (destination from_client) s)).
  assert (Hrefl : forall s, R s [] s) by (intros s; repeat split).
  assert (Htrans : forall s c1 s1 c2 s2, R s c1 s1 -> R s1 c2 s2 -> R s (c1 ++ c2) s2).
  { intros s c1 s1 c2 s2 (A1 & B1 & C1 & D1) (A2 & B2 & C2 & D2).
    repeat split; congruence. }
  assert (Hlib : forall s ws q, R s [] (assign ws (with_proto q (deref ws s)) s)).
  { intros s ws q. destruct from_client, ws, s as [c f [] [] h]; repeat split. }
  assert (Hbody : forall e s,
            R s (emitted (on_ws_event from_client e s))
              (layer_after (on_ws_event from_client e s))).
  { intros e s. destruct (on_ws_event_wiring from_client e s) as (A & B & C).
    repeat split; try assumption. apply on_ws_event_destination_buffer. }
  pose proof (for_events_keeps R Hrefl Htrans Hlib _ Hbody steps (source from_client)
                (assign (source from_client)
                   (with_proto p (deref (source from_client) self)) self)) as H.
  exact (Htrans _ _ _ _ _ (Hlib self _ _) H).
Qed.

(** X6.  The messages of the flow only grow, and by one message for each
    message hook: whatever the library yields, the messages after an event
    are the messages before it followed by as many messages as message
    hooks were yielded. *)
Theorem relay_appends_messages (steps : nat) (event : ConnectionEvent) self :
  let r := relay_messages steps event self in
  exists extra,
    messages (websocket (flow (layer_after r)))
    = messages (websocket (flow self)) ++ extra /\
    List.length extra = List.length (filter is_message_hook (emitted r)).
Proof.
  apply (relay_messages_keeps
           (fun s c s' =>
              exists extra,
                messages (websocket (flow s')) = messages (websocket (flow s)) ++ extra /\
                List.length extra = List.length (filter is_message_hook c))).
  - intros s. exists []. now rewrite app_nil_r.
  - intros s c1 s1 c2 s2 (x1 & E1 & L1) (x2 & E2 & L2). exists (x1 ++ x2).
    rewrite E2, E1, app_assoc, filter_app, !length_app, L1, L2. now split.
  - intros s ws p. exists []. rewrite app_nil_r. split; [| reflexivity].
    destruct ws, s as [c f [] [] h]; reflexivity.
  - intros from_client e s. apply on_ws_event_messages.
Qed.

(** X7.  The layer is done exactly when a session has been ended: after an
    event, the handler is [done] if and only if it was [done] before or the
    session-end or the session-error hook was yielded for the event. *)
Theorem relay_done_iff_final_hook (steps : nat) (event : ConnectionEvent) self :
  let r := relay_messages steps event self in
  _handle_event (layer_after r) = done_handler
  <-> _handle_event self = done_handler \/ existsb is_final_hook (emitted r) = true.
Proof.
  apply (relay_messages_keeps
           (fun s c s' =>
              _handle_event s' = done_handler
              <-> _handle_event s = done_handler \/ existsb is_final_hook c = true)).
  - intros s. cbn. intuition discriminate.
  - intros s c1 s1 c2 s2 H1 H2. rewrite existsb_app, orb_true_iff. tauto.
  - intros s ws p. destruct ws, s as [c f [] [] h]; cbn; intuition discriminate.
  - intros from_client e s. apply on_ws_event_handler.
Qed.

(** X8.  Nothing goes to a stranger: every send and every close that handling
    an event yields is for the transport connection of one of the two
    sides of the layer. *)
Theorem relay_addresses_both_sides_only (steps : nat) (event : ConnectionEvent) self :
  Forall (addressed self) (emitted (relay_messages steps event self)).
Proof.
  apply (relay_messages_keeps
           (fun s c s' =>
              (conn (client_ws s') = conn (client_ws s) /\
               conn (server_ws s') = conn (server_ws s)) /\
              Forall (addressed s) c)).
  - intros s. repeat split. constructor.
  - intros s c1 s1 c2 s2 [[A1 B1] F1] [[A2 B2] F2]. split; [split; congruence |].
    apply Forall_app. split; [exact F1 |].
    eapply Forall_impl; [| exact F2]. intros [] Hc; cbn in *; try exact I;
      rewrite <- A1, <- B1; exact Hc.
  - intros s ws p. split; [| constructor].
    destruct ws, s as [c f [] [] h]; split; reflexivity.
  - intros from_client e s. split; [| apply on_ws_event_addressed].
    destruct (on_ws_event_wiring from_client e s) as (_ & B & C). now split.
Qed.

(** *** Events that are relayed *)










End Loop.
(** ** Faults of the protocol *)

Section Faults.
Import wsproto websocket http events commands.

Context {P : Type} {lib : wsproto.Library P} {addons : Addons}.


End Faults.

(** ** Batches of fragments *)

Section Batches.
Import wsproto websocket http events commands.

Context {P : Type} {lib : wsproto.Library P} {addons : Addons}.

Implicit Types (self s : @WebsocketLayer P) (from_client : bool).

Lemma for_events_unfinished from_client (evs : list Event) (ds : list bytes) :
  unfinished evs ds ->
  forall (rest : list Event) (p' : P) (steps : nat) self,
  yields (proto (deref (source from_client) self)) (evs ++ rest) p' ->
  exists p1,
    yields p1 rest p' /\
    for_events (List.length evs + steps) (source from_client) (on_ws_event from_client) self
    = for_events steps (source from_client) (on_ws_event from_client)
        (source_with p1 (frame_buf (deref (source from_client) self) ++ ds)
           from_client self).
Proof.
  induction 1 as [| e d evs ds [is_text He] _ IH]; intros rest p' steps self Hy.
  - exists (proto (deref (source from_client) self)). split; [exact Hy |].
    rewrite app_nil_r. cbn [List.length Nat.add]. f_equal.
    destruct from_client, self as [c f [] [] h]; reflexivity.
  - cbn [app] in Hy. inversion Hy as [| p0 e0 p1 evs0 p0' Hnext Hrest]; subst.
    cbn [List.length Nat.add]. rewrite for_events_step, Hnext. cbv zeta.
    rewrite (on_ws_event_message _ _ _ _ _ He), on_message_unfinished_run.
    unfold outcome, emitted, layer_after. cbn [fst snd app].
    edestruct (IH rest p' steps) as (p2 & Hy2 & ->).
    { destruct from_client, self as [c f [] [] h]; exact Hrest. }
    exists p2. split; [exact Hy2 |].
    match goal with
    | |- context [source_with p2 ?b from_client ?s1] =>
        replace (source_with p2 b from_client s1)
          with (source_with p2
                  (frame_buf (deref (source from_client) self) ++ d :: ds)
                  from_client self)
    end.
    + now destruct (for_events steps _ _ _) as [[c2 s2] o2].
    + destruct from_client, self as [c f [pc cc bc] [ps cs bs] h];
        cbn; now rewrite <- app_assoc.
Qed.

Lemma for_events_end (steps : nat) ws (body : Event -> CommandGenerator unit) self :
  next_event (proto (deref ws self)) = None ->
  for_events (S steps) ws body self = ([], self, Returned tt).
Proof. intros H. now rewrite for_events_step, H. Qed.

Lemma yields_end (p p' : P) : yields p [] p' -> p' = p /\ next_event p = None.
Proof. inversion 1; subst. now split. Qed.

(** X10.  Fragments that do not finish a message wait in the frame buffer: when
    the bytes of an event bring only such fragments, or no whole frame at
    all, the layer yields no command and leaves the flow alone; the
    fragments join the frame buffer of their side in the order of their
    arrival. *)
Theorem fragments_wait_in_the_buffer (steps : nat) (event : ConnectionEvent) self
    (evs : list Event) (ds : list bytes) (p' : P) :
  let from_client := connection.eqb (connection_of event) (client (context self)) in
  let data :=
    match event with DataReceived _ data => Some data | ConnectionClosed _ => None end in
  let src_ws := deref (source from_client) self in
  yields (receive_data (proto src_ws) data) evs p' ->
  unfinished evs ds ->
  (List.length evs < steps)%nat ->
  relay_messages steps event self
  = ([], source_with p' (frame_buf src_ws ++ ds) from_client self, Returned tt).
Proof.
  intros from_client data src_ws Hy Hun Hsteps. subst src_ws.
  rewrite relay_messages_run. cbv zeta. fold from_client data.
  set (p0 := receive_data _ data) in *.
  replace steps with (List.length evs + S (steps - List.length evs - 1))%nat by lia.
  edestruct (for_events_unfinished from_client evs ds Hun [] p'
               (S (steps - List.length evs - 1))
               (assign (source from_client)
                  (with_proto p0 (deref (source from_client) self)) self))
    as (p1 & Hend & ->).
  { rewrite app_nil_r.
    destruct from_client, self as [c f [] [] h]; exact Hy. }
  apply yields_end in Hend as [-> Hnone].
  rewrite for_events_end.
  - f_equal. f_equal. destruct from_client, self as [c f [] [] h]; reflexivity.
  - destruct from_client, self as [c f [] [] h]; exact Hnone.
Qed.

(** X11.  A message that the addons leave alone goes out as it came in: when
    the bytes of an event bring the last fragments of a message, the last
    of them marked final, and the message hook returns the message
    untouched, the layer yields the message hook and then one send per
    fragment of the message, buffered ones included, to the other side:
    the fragments themselves for a binary message, in their order, all
    marked non-final but the last.  The message is the last of the flow
    and the frame buffer is empty again. *)
Theorem unmodified_message_relayed (steps : nat) (event : ConnectionEvent) self
    (evs : list Event) (ds : list bytes) (final_event : Event) (is_text : bool)
    (d : bytes) (p' : P) :
  let from_client := connection.eqb (connection_of event) (client (context self)) in
  let data :=
    match event with DataReceived _ data => Some data | ConnectionClosed _ => None end in
  let src_ws := deref (source from_client) self in
  let dst_ws := deref (destination from_client) self in
  let fragments := frame_buf src_ws ++ ds ++ [d] in
  let message :=
    WebSocketMessage__init__ (if is_text then TEXT else BINARY) from_client
      (List.concat fragments) in
  let hooked :=
    with_websocket
      (with_messages (messages (websocket (flow self)) ++ [message])
         (websocket (flow self)))
      (flow self) in
  let fragmentizer :=
    {| Fragmentizer.fragment_lengths := map len fragments;
       Fragmentizer.is_text := is_text |} in
  let forwarded := parts fragmentizer (removelast fragments) (last fragments []) in
  yields (receive_data (proto src_ws) data) (evs ++ [final_event]) p' ->
  unfinished evs ds ->
  message_of final_event = Some (is_text, d, true) ->
  websocket_message hooked = message ->
  List.concat fragments <> [] ->
  (List.length evs + 1 < steps)%nat ->
  relay_messages steps event self
  = (WebsocketMessageHook hooked
       :: map (SendData (conn dst_ws)) (fst (send_all (proto dst_ws) forwarded)),
     assign (destination from_client)
       (with_proto (snd (send_all (proto dst_ws) forwarded)) dst_ws)
       (with_flow hooked (source_with p' [] from_client self)),
     Returned tt).
Proof.
  intros from_client data src_ws dst_ws fragments message hooked fragmentizer
    forwarded Hy Hun Hfinal Hhook Hne Hsteps.
  rewrite relay_messages_run. cbv zeta. fold from_client data.
  set (p0 := receive_data _ data) in *.
  replace steps
    with (List.length evs + S (S (steps - List.length evs - 2)))%nat by lia.
  edestruct (for_events_unfinished from_client evs ds Hun [final_event] p'
               (S (S (steps - List.length evs - 2)))
               (assign (source from_client)
                  (with_proto p0 (deref (source from_client) self)) self))
    as (p1 & Hlast & ->).
  { destruct from_client, self as [c f [] [] h]; exact Hy. }
  inversion Hlast as [| q e q1 evs0 q' Hnext Hend]; subst.
  apply yields_end in Hend as [-> Hnone].
  rewrite for_events_step.
  replace (next_event (proto (deref (source from_client) (source_with p1 _ _ _))))
    with (Some (final_event, q1))
    by (destruct from_client, self as [c f [] [] h]; symmetry; exact Hnext).
  cbv zeta.
  rewrite (on_ws_event_message _ _ _ _ _ Hfinal), on_message_finished_exact.
  cbv zeta. unfold resumed.
  replace (flow (at_hook _ from_client is_text d)) with hooked.
  2: { subst hooked message fragments src_ws.
       destruct from_client, self as [c f [pc cc bc] [ps cs bs] h];
         unfold source_with; run_layer; now rewrite <- app_assoc. }
  rewrite Hhook. subst message. cbn [killed content WebSocketMessage__init__].
  replace (frame_buf (deref (source from_client) _) ++ [d]) with fragments.
  2: { subst fragments src_ws.
       destruct from_client, self as [c f [pc cc bc] [ps cs bs] h];
         unfold source_with; run_layer; now rewrite <- app_assoc. }
  rewrite (call_own_content fragments is_text Hne). fold fragmentizer forwarded.
  rewrite for_events_end.
  2: { unfold layer_after. cbn [fst snd].
       destruct from_client, self as [c f [pc cc bc] [ps cs bs] h]; exact Hnone. }
  unfold emitted, layer_after, outcome. cbn [fst snd]. rewrite app_nil_r.
  f_equal. f_equal.
  - subst dst_ws. destruct from_client, self as [c f [pc cc bc] [ps cs bs] h];
      reflexivity.
  - subst dst_ws hooked fragments src_ws.
    destruct from_client, self as [c f [pc cc bc] [ps cs bs] h];
      unfold source_with; run_layer; rewrite <- ?app_assoc; reflexivity.
Qed.

End Batches.
(** ** The start of the layer *)

Section Starting.
Import wsproto websocket http events commands handshake.

Context {P E : Type} {hs : handshake.Library P E}.

Lemma for_extensions_pass (exts : list str) :
  Forall passes exts ->
  forall (client_extensions server_extensions : list E) (yielded : list Command),
  exists extensions : list E,
    Forall2 (fun ext e => PerMessageDeflate_finalize ext = Some e)
      (filter supported exts) extensions /\
    for_extensions exts client_extensions server_extensions yielded
    = (yielded ++ map ignoring (filter (fun ext => negb (supported ext)) exts),
       inr (client_extensions ++ extensions, server_extensions ++ extensions)).
Proof.
  induction 1 as [| ext exts Hext _ IH]; intros cl sv ys.
  - exists []. split; [constructor |]. cbn. now rewrite !app_nil_r.
  - cbn [for_extensions filter]. unfold passes in Hext. fold (supported ext).
    destruct (supported ext) eqn:Hs; cbn [negb].
    + destruct (PerMessageDeflate_finalize ext) as [e |] eqn:He;
        [| now exfalso; apply Hext].
      destruct (IH (cl ++ [e]) (sv ++ [e]) ys) as (es & Hes & ->).
      exists (e :: es). split; [now constructor |].
      now rewrite <- !app_assoc.
    + change (Log _) with (ignoring ext).
      destruct (IH cl sv (ys ++ [ignoring ext])) as (es & Hes & ->).
      exists es. split; [exact Hes |].
      cbn [map]. now rewrite <- app_assoc.
Qed.

Lemma for_extensions_raise (before : list str) (bad : str) (after : list str) :
  Forall passes before ->
  supported bad = true ->
  PerMessageDeflate_finalize bad = None ->
  forall (client_extensions server_extensions : list E) (yielded : list Command),
  for_extensions (before ++ bad :: after) client_extensions server_extensions yielded
  = (yielded ++ map ignoring (filter (fun ext => negb (supported ext)) before),
     inl bad).
Proof.
  intros Hbefore Hs Hbad.
  induction Hbefore as [| ext exts Hext _ IH]; intros cl sv ys.
  - cbn [app for_extensions filter map]. fold (supported bad).
    now rewrite Hs, Hbad, app_nil_r.
  - cbn [app for_extensions filter]. unfold passes in Hext. fold (supported ext).
    destruct (supported ext) eqn:Hs'; cbn [negb].
    + destruct (PerMessageDeflate_finalize ext) as [e |] eqn:He;
        [| now exfalso; apply Hext].
      apply IH.
    + change (Log _) with (ignoring ext).
      rewrite IH. cbn [map]. now rewrite <- app_assoc.
Qed.

Lemma start_run (ctx : Context) (fl : HTTPFlow) (ext_header : str) :
  Forall passes (offered ext_header) ->
  exists extensions : list E,
    Forall2 (fun ext e => PerMessageDeflate_finalize ext = Some e)
      (filter supported (offered ext_header)) extensions /\
    start ctx fl ext_header
    = (map ignoring (filter (fun ext => negb (supported ext)) (offered ext_header))
         ++ [WebsocketStartHook fl],
       Relaying
         {| context := ctx;
            flow := fl;
            client_ws :=
              {| proto := Connection__init__ SERVER extensions;
                 conn := client ctx;
                 frame_buf := [] |};
            server_ws :=
              {| proto := Connection__init__ CLIENT extensions;
                 conn := server ctx;
                 frame_buf := [] |};
            _handle_event := relay_messages_handler |}).
Proof.
  unfold start, offered. destruct ext_header as [| a s]; intros Hpass.
  - exists []. split; [constructor | reflexivity].
  - destruct (for_extensions_pass _ Hpass [] [] []) as (es & Hes & ->).
    exists es. split; [exact Hes | reflexivity].
Qed.

(** What the layer that [start] leaves is made of. *)
Lemma start_relaying (ctx : Context) (fl : HTTPFlow) (ext_header : str)
    (self : @WebsocketLayer P) :
  snd (start ctx fl ext_header) = Relaying self ->
  context self = ctx /\
  conn (client_ws self) = client ctx /\
  conn (server_ws self) = server ctx.
Proof.
  unfold start.
  destruct (match ext_header with
            | EmptyString => _
            | String _ _ => _
            end) as [ys [ext | [cl sv]]]; cbn [snd]; [discriminate |].
  intros [= <-]. repeat split.
Qed.

(** X15.  Unknown extensions do not stop the start: when [finalize]
    accepts every offer of the supported extension in the header, [start]
    yields one log entry for each extension of the header that is not the
    supported one, in the order of the header, then the session-start hook,
    once and last, and nothing else; with an empty header it yields the
    hook alone, and the library is not asked to split anything. *)
Theorem start_logs_then_hook (ctx : Context) (fl : HTTPFlow) (ext_header : str) :
  Forall passes (offered ext_header) ->
  fst (start ctx fl ext_header)
  = map ignoring (filter (fun ext => negb (supported ext)) (offered ext_header))
      ++ [WebsocketStartHook fl].
Proof.
  intros Hpass. destruct (start_run ctx fl ext_header Hpass) as (es & _ & ->).
  reflexivity.
Qed.

(** X16.  Both sides are set up alike: when [finalize] accepts every offer
    of the supported extension in the header, [start] returns and leaves a
    layer whose handler is [relay_messages]; its client-side connection
    has the type SERVER and the transport connection of the client, its
    server-side connection the type CLIENT and the transport connection of
    the server; both start with an empty frame buffer and with one
    finalized extension for each supported extension of the header, from
    the same offers in the same order. *)
Theorem start_builds_both_sides (ctx : Context) (fl : HTTPFlow)
    (ext_header : str) :
  Forall passes (offered ext_header) ->
  exists extensions : list E,
    Forall2 (fun ext e => PerMessageDeflate_finalize ext = Some e)
      (filter supported (offered ext_header)) extensions /\
    snd (start ctx fl ext_header)
    = Relaying
        {| context := ctx;
           flow := fl;
           client_ws :=
             {| proto := Connection__init__ SERVER extensions;
                conn := client ctx;
                frame_buf := [] |};
           server_ws :=
             {| proto := Connection__init__ CLIENT extensions;
                conn := server ctx;
                frame_buf := [] |};
           _handle_event := relay_messages_handler |}.
Proof.
  intros Hpass. destruct (start_run ctx fl ext_header Hpass) as (es & Hes & ->).
  exists es. split; [exact Hes | reflexivity].
Qed.

(** X18.  An offer of the supported extension that [finalize] refuses
    stops the start: [start] yields the log entries for the unsupported
    extensions before that offer and nothing else, and the exception of
    [finalize] leaves it; the session-start hook is not yielded, the
    offers after it are not looked at, and no layer with connections is
    left. *)
Theorem start_stops_at_refused_offer (ctx : Context) (fl : HTTPFlow)
    (ext_header : str) (before : list str) (bad : str) (after : list str) :
  offered ext_header = before ++ bad :: after ->
  Forall passes before ->
  supported bad = true ->
  PerMessageDeflate_finalize bad = None ->
  start ctx fl ext_header
  = (map ignoring (filter (fun ext => negb (supported ext)) before),
     FinalizeRaised bad).
Proof.
  unfold start, offered. intros Hoff Hbefore Hs Hbad.
  destruct ext_header as [| a s]; [now destruct before |].
  rewrite Hoff, (for_extensions_raise before bad after Hbefore Hs Hbad).
  reflexivity.
Qed.

Context {lib : wsproto.Library P} {addons : Addons}.

Lemma connection_eqb_refl (c : connection.Connection) : connection.eqb c c = true.
Proof. destruct c. apply Nat.eqb_refl. Qed.

(** X17.  The sides that [start] sets up are the sides that [relay_messages]
    tells apart: when [start] returns, on the layer that it leaves, a ping
    in the bytes received from the transport connection of the client is
    logged as coming from the client and sent on the transport connection
    of the server. *)
Theorem ping_after_start (ctx : Context) (fl : HTTPFlow) (ext_header : str)
    (self : @WebsocketLayer P) (steps : nat) (data payload : bytes) (p' : P) :
  snd (start ctx fl ext_header) = Relaying self ->
  yields (receive_data (proto (client_ws self)) (Some data)) [Ping payload] p' ->
  (1 < steps)%nat ->
  emitted (relay_messages steps (DataReceived (client ctx) data) self)
  = [Log (control_log "ping" true payload);
     SendData (server ctx) (fst (send (proto (server_ws self)) (Ping payload)))].
Proof.
  intros Hstart Hy Hsteps.
  apply start_relaying in Hstart as (Hctx & Hclient & Hserver).
  destruct steps as [| [| steps]]; [lia | lia |].
  rewrite relay_messages_run. cbv zeta. cbn [connection_of].
  rewrite Hctx, connection_eqb_refl. cbn [source].
  inversion Hy as [| q e q1 evs q' Hnext Hend]; subst.
  apply yields_end in Hend as [-> Hnone].
  rewrite for_events_step.
  replace (next_event (proto (deref the_client_ws (assign the_client_ws _ self))))
    with (Some (Ping payload, q1))
    by (symmetry; exact Hnext).
  cbv zeta. cbn [on_ws_event]. rewrite on_ping_pong_run.
  unfold outcome at 1. cbn [snd]. rewrite for_events_end.
  - cbn. now rewrite Hserver.
  - exact Hnone.
Qed.

End Starting.

(** ** One event at a time *)

Section Forwarding.
Import wsproto websocket http events commands.

Context {P : Type} {lib : wsproto.Library P} {addons : Addons}.

(** X12.  A message or a control frame is relayed forward only: for an event
    that is not a close, every send goes to the transport connection of the
    other side, never back to the side the event came from, and the layer
    yields neither the close of a transport connection nor a hook that ends
    the session. *)
Theorem forwarded_to_the_other_side (from_client : bool) (ws_event : Event)
    (self : @WebsocketLayer P) :
  (forall code reason, ws_event <> wsproto.CloseConnection code reason) ->
  Forall
    (fun c =>
       match c with
       | SendData k _ => k = conn (deref (destination from_client) self)
       | commands.CloseConnection _ | WebsocketEndHook _ | WebsocketErrorHook _ => False
       | _ => True
       end)
    (emitted (on_ws_event from_client ws_event self)).
Proof.
  intros Hclose.
  assert (Hsends : forall k ds,
            k = conn (deref (destination from_client) self) ->
            Forall
              (fun c =>
                 match c with
                 | SendData k _ => k = conn (deref (destination from_client) self)
                 | commands.CloseConnection _ | WebsocketEndHook _
                 | WebsocketErrorHook _ => False
                 | _ => True
                 end) (map (SendData k) ds)).
  { intros k ds Hk. induction ds; constructor; assumption. }
  destruct ws_event as [data ff [|] | data ff [|] | data | data | code reason | printed];
    cbn [on_ws_event];
    [ rewrite on_message_finished_exact | rewrite on_message_unfinished_run
    | rewrite on_message_finished_exact | rewrite on_message_unfinished_run
    | rewrite on_ping_pong_run | rewrite on_ping_pong_run
    | exfalso; now apply (Hclose code reason) | unfold raise ];
    cbv zeta; unfold emitted; cbn [fst snd].
  1, 3: constructor; [exact I |]; now apply Hsends.
  1, 2, 5: constructor.
  1, 2: constructor; [exact I |]; constructor; [reflexivity | constructor].
Qed.

Lemma send_all_length (p : P) (evs : list Event) :
  List.length (fst (send_all p evs)) = List.length evs.
Proof.
  revert p. induction evs as [| e evs IH]; intros p; cbn [send_all]; [reflexivity |].
  destruct (send p e) as [d p1]. specialize (IH p1).
  destruct (send_all p1 evs) as [ds p2]. cbn [fst List.length] in *. now rewrite IH.
Qed.

(** X13.  An edited message goes out in frames of at most 4000 bytes: when the
    message hook leaves a completed message alive with a content that is not
    empty and whose length is not the length received, the layer yields the
    hook and then as many sends as the new length divided by 4000 and
    rounded up, all of them to the other side. *)
Theorem edited_message_sends (from_client : bool) (ws_event : Event)
    (is_text : bool) (data : bytes) (self : @WebsocketLayer P) :
  let hooked := at_hook self from_client is_text data in
  let message := websocket_message (flow hooked) in
  let received := frame_buf (deref (source from_client) self) ++ [data] in
  message_of ws_event = Some (is_text, data, true) ->
  killed message = false ->
  content message <> [] ->
  len (content message) <> len (List.concat received) ->
  exists sent,
    emitted (on_ws_event from_client ws_event self)
    = WebsocketMessageHook (flow hooked)
        :: map (SendData (conn (deref (destination from_client) self))) sent /\
    len sent = (len (content message) + 3999) / 4000.
Proof.
  intros hooked message received Hmsg Halive Hne Hlen.
  rewrite (on_ws_event_message _ _ _ _ _ Hmsg), on_message_finished_exact.
  cbv zeta. fold hooked message received. rewrite Halive.
  unfold emitted. cbn [fst]. eexists. split; [reflexivity |].
  unfold len at 1. rewrite send_all_length.
  assert (Hsum : forall fs : list bytes, len (List.concat fs) = sum (map len fs)).
  { induction fs as [| f fs IH]; [reflexivity |].
    cbn [List.concat map sum fold_right]. rewrite len_app. fold (sum (map len fs)).
    now rewrite IH. }
  rewrite Hsum in Hlen.
  destruct (call_different_length
              {| Fragmentizer.fragment_lengths := map len received;
                 Fragmentizer.is_text := is_text |} (content message) Hne Hlen)
    as (chunks & tail & Hcat & Hall & Htail & Hcall).
  rewrite Hcall. unfold parts. rewrite length_app, length_map. cbn [List.length].
  pose proof (tail_length_bounds (len (content message))) as [Hbound _].
  assert (HF : Fragmentizer.FRAGMENT_SIZE = 4000) by reflexivity.
  assert (Hn : len (content message)
               = 4000 * Z.of_nat (List.length chunks) + len tail).
  { rewrite <- Hcat at 1. rewrite len_app, (len_concat_fixed chunks 4000); [lia |].
    now rewrite <- HF. }
  replace (len (content message) + 3999)
    with (len tail + 3999 + Z.of_nat (List.length chunks) * 4000) by lia.
  rewrite Z.div_add by lia.
  assert (Hq : (len tail + 3999) / 4000 = 1).
  { symmetry. apply (Z.div_unique _ 4000 1 (len tail - 1)); lia. }
  rewrite Hq. unfold bytes in *. lia.
Qed.

(** X14.  A close is put on record: after a close event, the flow tells which
    side closed, with which code and which reason, as the event has them;
    its messages are those it had, and for a code of normal closure its
    error is the one it had. *)
Theorem close_recorded (from_client : bool) (code : Z) (reason : option str)
    (self : @WebsocketLayer P) :
  let r := on_ws_event from_client (wsproto.CloseConnection code reason) self in
  let w := websocket (flow (layer_after r)) in
  closed_by_client w = Some from_client /\
  close_code w = Some code /\
  close_reason w = reason /\
  messages w = messages (websocket (flow self)) /\
  (In code [1000; 1001; 1005] -> error (flow (layer_after r)) = error (flow self)).
Proof.
  cbv zeta. cbn [on_ws_event]. rewrite on_close_run. unfold layer_after.
  cbn [fst snd flow]. unfold closed_flow.
  cbn [websocket closed_by_client close_code close_reason messages error].
  repeat split. intros Hcode.
  apply (proj2 (normal_closure_spec code)) in Hcode. now rewrite Hcode.
Qed.

End Forwarding.

Section FurtherInstances.
Import wsproto websocket http events commands.

(** [forwarded_to_the_other_side] on a pong from the server. *)
Lemma forwarded_to_the_other_side_witness :
  (forall code reason, Pong [x68; x69] <> wsproto.CloseConnection code reason) /\
  Forall
    (fun c =>
       match c with
       | SendData k _ => k = double.the_client
       | commands.CloseConnection _ | WebsocketEndHook _ | WebsocketErrorHook _ => False
       | _ => True
       end)
    (emitted
       (on_ws_event (lib := double.lib) (addons := double.untouched) false
          (Pong [x68; x69]) (double.relaying [] []))).
Proof.
  assert (H : forall code reason,
            Pong [x68; x69] <> wsproto.CloseConnection code reason)
    by discriminate.
  exact (conj H (forwarded_to_the_other_side (lib := double.lib)
                   (addons := double.untouched) false (Pong [x68; x69])
                   (double.relaying [] []) H)).
Defined.

(** [edited_message_sends] on a message of one byte that the addons replace
    by 4001 bytes. *)
Lemma edited_message_sends_witness :
  message_of (BytesMessage [x61] true true) = Some (false, [x61], true) /\
  exists sent,
    emitted
      (on_ws_event (lib := double.lib) (addons := double.rewrite_to accented) true
         (BytesMessage [x61] true true) (double.relaying [] []))
    = WebsocketMessageHook
        (flow (at_hook (double.relaying [] []) true false [x61]))
        :: map (SendData double.the_server) sent /\
    len sent = 2.
Proof.
  assert (H1 : message_of (BytesMessage [x61] true true) = Some (false, [x61], true))
    by reflexivity.
  split; [exact H1 |].
  apply (edited_message_sends (lib := double.lib)
           (addons := double.rewrite_to accented) true
           (BytesMessage [x61] true true) false [x61] (double.relaying [] []) H1).
  - reflexivity.
  - vm_compute. discriminate.
  - vm_compute. discriminate.
Defined.

(** [close_recorded] on a normal closure from the server. *)
Lemma close_recorded_witness :
  In 1001 [1000; 1001; 1005] /\
  error
    (flow
       (layer_after
          (on_ws_event (lib := double.lib) (addons := double.untouched) false
             (wsproto.CloseConnection 1001 (Some "bye")) double.closing_from_server)))
  = None.
Proof.
  assert (H : In 1001 [1000; 1001; 1005]) by (simpl; tauto).
  split; [exact H |].
  exact (proj2 (proj2 (proj2 (proj2
           (close_recorded (lib := double.lib) (addons := double.untouched) false
              1001 (Some "bye") double.closing_from_server)))) H).
Defined.

(** [fragments_wait_in_the_buffer] on a fragment that joins another one. *)
Lemma fragments_wait_in_the_buffer_witness :
  yields (lib := framed.lib)
    {| double.st := OPEN;
       double.queue := [TextMessage "he" true false; TextMessage "ll" true false] |}
    [TextMessage "he" true false; TextMessage "ll" true false]
    {| double.st := OPEN; double.queue := [] |} /\
  unfinished [TextMessage "he" true false; TextMessage "ll" true false]
    [encode "he"; encode "ll"] /\
  (2 < 3)%nat /\
  relay_messages (lib := framed.lib) (addons := double.untouched) 3
    (DataReceived double.the_client [x01; x6c; x6c])
    (double.relaying [TextMessage "he" true false] [])
  = ([],
     source_with {| double.st := OPEN; double.queue := [] |}
       [encode "he"; encode "ll"] true
       (double.relaying [TextMessage "he" true false] []),
     Returned tt).
Proof.
  assert (H1 : yields (lib := framed.lib)
                 {| double.st := OPEN;
                    double.queue :=
                      [TextMessage "he" true false; TextMessage "ll" true false] |}
                 [TextMessage "he" true false; TextMessage "ll" true false]
                 {| double.st := OPEN; double.queue := [] |}).
  { eapply yields_cons; [reflexivity |]. eapply yields_cons; [reflexivity |].
    apply yields_nil. reflexivity. }
  assert (H2 : unfinished [TextMessage "he" true false; TextMessage "ll" true false]
                 [encode "he"; encode "ll"]).
  { repeat constructor; exists true; reflexivity. }
  assert (H3 : (2 < 3)%nat) by lia.
  exact (conj H1 (conj H2 (conj H3
           (fragments_wait_in_the_buffer (lib := framed.lib)
              (addons := double.untouched) 3
              (DataReceived double.the_client [x01; x6c; x6c])
              (double.relaying [TextMessage "he" true false] [])
              _ _ _ H1 H2 H3)))).
Defined.

(** [unmodified_message_relayed] on a binary message of which one fragment
    was waiting and the last one arrives. *)
Lemma unmodified_message_relayed_witness :
  yields (lib := double.lib)
    {| double.st := OPEN;
       double.queue := [BytesMessage [x68; x65] true false; BytesMessage [x79] true true] |}
    ([BytesMessage [x68; x65] true false] ++ [BytesMessage [x79] true true])
    {| double.st := OPEN; double.queue := [] |} /\
  emitted
    (relay_messages (lib := double.lib) (addons := double.untouched) 3
       (DataReceived double.the_client [x79])
       (double.relaying [BytesMessage [x68; x65] true false] []))
  = [WebsocketMessageHook
       {| websocket :=
            {| messages := [Build_WebSocketMessage BINARY true [x68; x65; x79] false];
               closed_by_client := None; close_code := None; close_reason := None |};
          error := None |};
     SendData double.the_server [x68; x65];
     SendData double.the_server [x79]].
Proof.
  assert (H1 : yields (lib := double.lib)
                 {| double.st := OPEN;
                    double.queue :=
                      [BytesMessage [x68; x65] true false;
                       BytesMessage [x79] true true] |}
                 ([BytesMessage [x68; x65] true false] ++ [BytesMessage [x79] true true])
                 {| double.st := OPEN; double.queue := [] |}).
  { eapply yields_cons; [reflexivity |]. eapply yields_cons; [reflexivity |].
    apply yields_nil. reflexivity. }
  assert (H2 : unfinished [BytesMessage [x68; x65] true false] [[x68; x65]]).
  { repeat constructor; exists false; reflexivity. }
  split; [exact H1 |].
  exact (f_equal fst
           (f_equal fst
              (unmodified_message_relayed (lib := double.lib)
                 (addons := double.untouched) 3
                 (DataReceived double.the_client [x79])
                 (double.relaying [BytesMessage [x68; x65] true false] [])
                 [BytesMessage [x68; x65] true false] [[x68; x65]]
                 (BytesMessage [x79] true true) false [x79]
                 {| double.st := OPEN; double.queue := [] |}
                 H1 H2 eq_refl eq_refl ltac:(discriminate) ltac:(simpl; lia)))).
Defined.

(** [start_logs_then_hook] on a header that offers the supported extension
    between two others. *)
Lemma start_logs_then_hook_witness :
  Forall (passes (hs := double_start.lib))
    (offered (hs := double_start.lib)
       "x-foo; a=1, permessage-deflate; client_max_window_bits=10 ,bar") /\
  fst (start (hs := double_start.lib)
         {| client := double.the_client; server := double.the_server |}
         double.new_flow
         "x-foo; a=1, permessage-deflate; client_max_window_bits=10 ,bar")
  = [Log "Ignoring unknown WebSocket extension 'x-foo'.";
     Log "Ignoring unknown WebSocket extension 'bar'.";
     WebsocketStartHook double.new_flow].
Proof.
  assert (H : Forall (passes (hs := double_start.lib))
                (offered (hs := double_start.lib)
                   "x-foo; a=1, permessage-deflate; client_max_window_bits=10 ,bar")).
  { repeat constructor; intros _ H; vm_compute in H; discriminate H. }
  exact (conj H
           (start_logs_then_hook (hs := double_start.lib)
              {| client := double.the_client; server := double.the_server |}
              double.new_flow
              "x-foo; a=1, permessage-deflate; client_max_window_bits=10 ,bar" H)).
Defined.

(** [start_builds_both_sides] on a header with two offers of the supported
    extension. *)
Lemma start_builds_both_sides_witness :
  Forall (passes (hs := double_start.lib))
    (offered (hs := double_start.lib)
       "permessage-deflate; server_no_context_takeover, permessage-deflate") /\
  exists extensions : list str,
    Forall2 (fun ext e => handshake.PerMessageDeflate_finalize (Library := double_start.lib) ext = Some e)
      (filter (supported (hs := double_start.lib))
         (offered (hs := double_start.lib)
            "permessage-deflate; server_no_context_takeover, permessage-deflate"))
      extensions /\
    snd (start (hs := double_start.lib)
           {| client := double.the_client; server := double.the_server |}
           double.new_flow
           "permessage-deflate; server_no_context_takeover, permessage-deflate")
    = Relaying
        {| context := {| client := double.the_client; server := double.the_server |};
           flow := double.new_flow;
           client_ws :=
             {| proto := handshake.Connection__init__ (Library := double_start.lib)
                    handshake.SERVER extensions;
                conn := double.the_client;
                frame_buf := [] |};
           server_ws :=
             {| proto := handshake.Connection__init__ (Library := double_start.lib)
                    handshake.CLIENT extensions;
                conn := double.the_server;
                frame_buf := [] |};
           _handle_event := relay_messages_handler |}.
Proof.
  assert (H : Forall (passes (hs := double_start.lib))
                (offered (hs := double_start.lib)
                   "permessage-deflate; server_no_context_takeover, permessage-deflate")).
  { repeat constructor; intros _ H; vm_compute in H; discriminate H. }
  exact (conj H
           (start_builds_both_sides (hs := double_start.lib)
              {| client := double.the_client; server := double.the_server |}
              double.new_flow
              "permessage-deflate; server_no_context_takeover, permessage-deflate" H)).
Defined.

(** [start_stops_at_refused_offer] on a header whose offer of the supported
    extension has a window size that is not a number. *)
Lemma start_stops_at_refused_offer_witness :
  offered (hs := double_start.lib)
    "x-foo, permessage-deflate; client_max_window_bits=abc, bar"
  = ["x-foo"] ++ "permessage-deflate; client_max_window_bits=abc" :: ["bar"] /\
  Forall (passes (hs := double_start.lib)) ["x-foo"] /\
  supported (hs := double_start.lib) "permessage-deflate; client_max_window_bits=abc"
  = true /\
  handshake.PerMessageDeflate_finalize (Library := double_start.lib)
    "permessage-deflate; client_max_window_bits=abc"
  = None /\
  start (hs := double_start.lib)
    {| client := double.the_client; server := double.the_server |} double.new_flow
    "x-foo, permessage-deflate; client_max_window_bits=abc, bar"
  = ([Log "Ignoring unknown WebSocket extension 'x-foo'."],
     FinalizeRaised "permessage-deflate; client_max_window_bits=abc").
Proof.
  assert (H1 : offered (hs := double_start.lib)
                 "x-foo, permessage-deflate; client_max_window_bits=abc, bar"
               = ["x-foo"] ++ "permessage-deflate; client_max_window_bits=abc" :: ["bar"])
    by reflexivity.
  assert (H2 : Forall (passes (hs := double_start.lib)) ["x-foo"]).
  { repeat constructor; intros _ H; vm_compute in H; discriminate H. }
  assert (H3 : supported (hs := double_start.lib)
                 "permessage-deflate; client_max_window_bits=abc" = true)
    by reflexivity.
  assert (H4 : handshake.PerMessageDeflate_finalize (Library := double_start.lib)
                 "permessage-deflate; client_max_window_bits=abc" = None)
    by reflexivity.
  exact (conj H1 (conj H2 (conj H3 (conj H4
           (start_stops_at_refused_offer (hs := double_start.lib)
              {| client := double.the_client; server := double.the_server |}
              double.new_flow
              "x-foo, permessage-deflate; client_max_window_bits=abc, bar"
              ["x-foo"] "permessage-deflate; client_max_window_bits=abc" ["bar"]
              H1 H2 H3 H4))))).
Defined.

(** [ping_after_start] on a header with an unknown extension. *)
Lemma ping_after_start_witness :
  snd (start (hs := double_start.lib)
         {| client := double.the_client; server := double.the_server |}
         double.new_flow "x-webkit-deflate-frame")
  = Relaying (double.relaying [] []) /\
  yields (lib := framed.lib)
    {| double.st := OPEN; double.queue := [Ping [x68; x69]] |}
    [Ping [x68; x69]]
    {| double.st := OPEN; double.queue := [] |} /\
  (1 < 2)%nat /\
  emitted
    (relay_messages (lib := framed.lib) (addons := double.untouched) 2
       (DataReceived double.the_client [x89; x68; x69])
       (double.relaying [] []))
  = [Log "Received WebSocket ping from client (payload: b'hi')";
     SendData double.the_server [x68; x69]].
Proof.
  assert (H0 : snd (start (hs := double_start.lib)
                      {| client := double.the_client; server := double.the_server |}
                      double.new_flow "x-webkit-deflate-frame")
               = Relaying (double.relaying [] []))
    by reflexivity.
  assert (H1 : yields (lib := framed.lib)
                 {| double.st := OPEN; double.queue := [Ping [x68; x69]] |}
                 [Ping [x68; x69]]
                 {| double.st := OPEN; double.queue := [] |}).
  { eapply yields_cons; [reflexivity |]. apply yields_nil. reflexivity. }
  assert (H2 : (1 < 2)%nat) by lia.
  exact (conj H0 (conj H1 (conj H2
           (ping_after_start (hs := double_start.lib) (lib := framed.lib)
              (addons := double.untouched)
              {| client := double.the_client; server := double.the_server |}
              double.new_flow "x-webkit-deflate-frame" (double.relaying [] [])
              2 [x89; x68; x69] [x68; x69]
              {| double.st := OPEN; double.queue := [] |} H0 H1 H2)))).
Defined.

(** The start on a header that offers the supported extension between two
    others. *)
Example start_with_three_offers :
  start (hs := double_start.lib)
    {| client := double.the_client; server := double.the_server |} double.new_flow
    "x-foo; a=1, permessage-deflate; client_max_window_bits=10 ,bar"
  = ([Log "Ignoring unknown WebSocket extension 'x-foo'.";
      Log "Ignoring unknown WebSocket extension 'bar'.";
      WebsocketStartHook double.new_flow],
     Relaying (double.relaying [] [])).
Proof. reflexivity. Qed.


(** The whole run on those bytes: the ping is relayed to the client, then
    the close is sent on each side and each transport connection closed,
    the server-side one first, and the session-error hook ends the
    run. *)
Example relay_of_malformed_bytes :
  emitted
    (relay_messages (lib := strict.lib) (addons := double.untouched) 3
       (DataReceived double.the_server [x83; x00])
       (double.relaying [] [Ping [x68; x69]]))
  = [Log "Received WebSocket ping from server (payload: b'hi')";
     SendData double.the_client [x68; x69];
     SendData double.the_server [];
     commands.CloseConnection double.the_server;
     SendData double.the_client [];
     commands.CloseConnection double.the_client;
     WebsocketErrorHook
       {| websocket :=
            {| messages := [];
               closed_by_client := Some false;
               close_code := Some 1002;
               close_reason := Some "Invalid opcode" |};
          error := Some "WebSocket Error: PROTOCOL_ERROR (reason: Invalid opcode)" |}].
Proof. reflexivity. Qed.

End FurtherInstances.
